(** * Genetic-Algorithms: a shallow embedding of [genetic.py]

    The program solves two-way number partitioning with a genetic
    algorithm.  Every method of the class [Genetic] is embedded below as a
    function on an explicit record of the object's fields.

    Conventions of the embedding:
    - Python [int] is [Z] where values are unbounded (differences, sums,
      fitness, dictionary keys) and [nat] where the code only ever uses it as
      a list index, a length or a counter;
    - a Python [str] is a [list ascii]; a gene is such a string;
    - a Python [float] is an IEEE 754 binary64 value, kept as the rational
      number it denotes ([Q]); every arithmetic operation rounds its exact
      result to the nearest binary64 value ([fl]), and the rationals 2^1024
      and -2^1024, which no finite float denotes, stand for the two
      infinities.  The floats of the program are the roulette thresholds,
      the mutation rate and the draws of [random.uniform];
    - the pseudo-random generator is a tape handed to the method: raw
      naturals for [random.randint] and [random.shuffle], rationals for
      [random.uniform].  A method that needs a draw when the tape is empty
      stops with [Starved];
    - an uncaught Python exception is [Raised]. *)

From Stdlib Require Import ZArith QArith Qround Qabs Ascii String Lia.
From stdpp Require Import base tactics option list sorting.

Local Open Scope char_scope.
Local Open Scope nat_scope.

(** ** Outcomes of a method call *)

Inductive Exception : Set :=
| IndexError
| KeyError
| ValueError
| NameError
| ZeroDivisionError
| OverflowError.

Inductive Outcome (A : Type) : Type :=
| Done (a : A)
| Raised (e : Exception)
| Starved.

Arguments Done {A} a.
Arguments Raised {A} e.
Arguments Starved {A}.

Definition obind {A B : Type} (m : Outcome A) (k : A -> Outcome B) : Outcome B :=
  match m with
  | Done a => k a
  | Raised e => Raised e
  | Starved => Starved
  end.

Notation "'let*' x ':=' m 'in' k" := (obind m (fun x => k))
  (at level 10, x pattern, m at level 100, k at level 200).

Definition fromOption {A : Type} (e : Exception) (o : option A) : Outcome A :=
  match o with
  | Some a => Done a
  | None => Raised e
  end.

(** ** Strings and genes *)

Abbreviation Gene := (list ascii).

(** [s.count(c)] for a one-character pattern [c]. *)
Fixpoint count (c : ascii) (s : Gene) : nat :=
  match s with
  | [] => 0
  | x :: s' => (if Ascii.eqb x c then 1 else 0) + count c s'
  end.

(** [s[lo:hi]] for non-negative bounds. *)
Definition slice {A : Type} (lo hi : nat) (s : list A) : list A :=
  drop lo (take hi s).

(** [c * n] for a one-character string [c]. *)
Definition times (c : ascii) (n : nat) : Gene := replicate n c.

(** ** The object state *)

Record Genetic : Type := mkGenetic {
  self_list : list Z;
  population : list Gene;
  selectedGenes : list Gene;
  numericalPopulation : list (list Z * list Z);
  populationFitness : list Z;
  frequency : list (Z * list Z);
  binaryPopulation : list Gene;
  mutationRate : Q;
  fitnessSum : Z;
  generation : Z
}.

Definition set_population (v : list Gene) (self : Genetic) : Genetic :=
  mkGenetic (self_list self) v (selectedGenes self) (numericalPopulation self)
    (populationFitness self) (frequency self) (binaryPopulation self)
    (mutationRate self) (fitnessSum self) (generation self).

Definition set_selectedGenes (v : list Gene) (self : Genetic) : Genetic :=
  mkGenetic (self_list self) (population self) v (numericalPopulation self)
    (populationFitness self) (frequency self) (binaryPopulation self)
    (mutationRate self) (fitnessSum self) (generation self).

Definition set_numericalPopulation (v : list (list Z * list Z)) (self : Genetic) : Genetic :=
  mkGenetic (self_list self) (population self) (selectedGenes self) v
    (populationFitness self) (frequency self) (binaryPopulation self)
    (mutationRate self) (fitnessSum self) (generation self).

Definition set_populationFitness (v : list Z) (self : Genetic) : Genetic :=
  mkGenetic (self_list self) (population self) (selectedGenes self)
    (numericalPopulation self) v (frequency self) (binaryPopulation self)
    (mutationRate self) (fitnessSum self) (generation self).

Definition set_frequency (v : list (Z * list Z)) (self : Genetic) : Genetic :=
  mkGenetic (self_list self) (population self) (selectedGenes self)
    (numericalPopulation self) (populationFitness self) v (binaryPopulation self)
    (mutationRate self) (fitnessSum self) (generation self).

Definition set_generation (v : Z) (self : Genetic) : Genetic :=
  mkGenetic (self_list self) (population self) (selectedGenes self)
    (numericalPopulation self) (populationFitness self) (frequency self)
    (binaryPopulation self) (mutationRate self) (fitnessSum self) v.

(** [frequencyTable]: the dictionary [{0: [], ..., 19: []}].  The dictionary
    is kept as an association list in iteration order; CPython enumerates a
    dictionary whose keys are the small integers 0..19 in ascending order. *)
Definition frequencyTable : list (Z * list Z) :=
  map (fun i => (Z.of_nat i, [])) (seq 0 20).

(** [__init__], for a given sample [self.list]. *)
Definition init (sample : list Z) : Genetic :=
  mkGenetic sample [] [] [] [] frequencyTable [] 1%Q 0%Z 1%Z.

(** ** The random source *)

(** [random.randint(a, b)] from one raw draw: an integer of [a..b]. *)
Definition randint (a b : nat) (raw : nat) : nat := a + raw mod (b - a + 1).

(** ** validateGene *)

Definition validateGene (gene : Gene) : bool :=
  if negb (count "0" gene =? 0) && negb (count "1" gene =? 50)
  then false
  else true.

(** ** crossover *)

(** [random.randint(0, 99)], the crossover point. *)
Definition drawCrossoverPoint (raw : nat) : nat := randint 0 99 raw.

(** [a[0 : crossoverPoint + 1] + b[crossoverPoint + 1 : 100]]. *)
Definition child (crossoverPoint : nat) (a b : Gene) : Gene :=
  slice 0 (crossoverPoint + 1) a ++ slice (crossoverPoint + 1) 100 b.

(** The inner [while] loop of [crossover]: both success flags are tested at
    the head of the loop, each pass draws one crossover point. *)
Fixpoint crossoverPair (parentOne parentTwo : Gene)
    (successfulFirstChild successfulSecondChild : bool)
    (newGeneration : list Gene) (draws : list nat)
  : Outcome (list Gene * list nat) :=
  if negb successfulFirstChild && negb successfulSecondChild then
    match draws with
    | [] => Starved
    | raw :: draws' =>
        let crossoverPoint := drawCrossoverPoint raw in
        let '(newGeneration, successfulFirstChild) :=
          if negb successfulFirstChild then
            let childOne := child crossoverPoint parentOne parentTwo in
            if validateGene childOne
            then (newGeneration ++ [childOne], true)
            else (newGeneration, successfulFirstChild)
          else (newGeneration, successfulFirstChild) in
        let '(newGeneration, successfulSecondChild) :=
          if negb successfulSecondChild then
            let childTwo := child crossoverPoint parentTwo parentOne in
            if validateGene childTwo
            then (newGeneration ++ [childTwo], true)
            else (newGeneration, successfulSecondChild)
          else (newGeneration, successfulSecondChild) in
        crossoverPair parentOne parentTwo
          successfulFirstChild successfulSecondChild newGeneration draws'
    end
  else Done (newGeneration, draws).

(** The outer [while len(newGeneration) < 20] loop.  Every pass consumes at
    least three draws, so [fuel] = number of draws left never runs out
    before the tape does. *)
Fixpoint crossoverLoop (fuel : nat) (pool : list Gene)
    (newGeneration : list Gene) (draws : list nat)
  : Outcome (list Gene * list nat) :=
  if length newGeneration <? 20 then
    match fuel with
    | 0 => Starved
    | S fuel' =>
        match draws with
        | rawOne :: rawTwo :: draws' =>
            let* parentOne := fromOption IndexError (pool !! randint 0 9 rawOne) in
            let* parentTwo := fromOption IndexError (pool !! randint 0 9 rawTwo) in
            let* (newGeneration, draws'') :=
              crossoverPair parentOne parentTwo false false newGeneration draws' in
            crossoverLoop fuel' pool newGeneration draws''
        | [rawOne] =>
            let* parentOne := fromOption IndexError (pool !! randint 0 9 rawOne) in
            Starved
        | [] => Starved
        end
    end
  else Done (newGeneration, draws).

Definition crossover (self : Genetic) (draws : list nat) : Outcome (Genetic * list nat) :=
  let* (newGeneration, draws') :=
    crossoverLoop (length draws) (selectedGenes self) [] draws in
  let self := set_population newGeneration self in
  let self := set_generation (generation self + 1)%Z self in
  Done (self, draws').

(** ** selection *)

(** *** binary64 arithmetic *)

Definition pow2 (e : Z) : Q :=
  if (0 <=? e)%Z then inject_Z (2 ^ e) else Qinv (inject_Z (2 ^ (- e))).

(** 2^1024, the first magnitude past the largest finite float; it and its
    opposite stand for [inf] and [-inf]: they compare with every finite
    float as the infinities do. *)
Definition infinity : Q := inject_Z (2 ^ 1024).

Definition isInfinite (x : Q) : bool := Qle_bool infinity (Qabs x).

(** The integer nearest to a rational, halves to the even neighbour. *)
Definition roundEven (q : Q) : Z :=
  let n := Qnum q in
  let d := Zpos (Qden q) in
  let f := (n / d)%Z in
  match (2 * (n mod d) ?= d)%Z with
  | Lt => f
  | Gt => (f + 1)%Z
  | Eq => if Z.even f then f else (f + 1)%Z
  end.

(** floor (log2 |q|) for a rational other than 0. *)
Definition exponent (q : Q) : Z :=
  let e := (Z.log2 (Z.abs (Qnum q)) - Z.log2 (Zpos (Qden q)))%Z in
  if Qle_bool (pow2 e) (Qabs q) then e else (e - 1)%Z.

(** The binary64 value nearest to a rational (53 significant bits, least
    exponent -1074, halves to even); a result of magnitude 2^1024 or more is
    an infinity. *)
Definition fl (q : Q) : Q :=
  if Qeq_bool q 0 then 0%Q
  else
    let p := (Z.max (exponent q) (-1022) - 52)%Z in
    let r := (inject_Z (roundEven (q / pow2 p)) * pow2 p)%Q in
    if Qle_bool infinity r then infinity
    else if Qle_bool r (- infinity) then (- infinity)%Q
    else Qred r.

(** [float(k)] for an integer [k]. *)
Definition float_of_int (k : Z) : Outcome Q :=
  let x := fl (inject_Z k) in
  if isInfinite x then Raised OverflowError else Done x.

(** [a / b] on two finite floats. *)
Definition fdiv (a b : Q) : Outcome Q :=
  if Qeq_bool b 0 then Raised ZeroDivisionError else Done (fl (a / b)).

(** [a + b] and [a * b] on floats; an infinite operand gives an infinite
    result (the program never adds opposite infinities nor multiplies an
    infinity by zero). *)
Definition fadd (a b : Q) : Q :=
  if isInfinite a then a else if isInfinite b then b else fl (a + b).

Definition fmul (a b : Q) : Q :=
  if isInfinite a || isInfinite b
  then (if Qle_bool 0 (a * b) then infinity else - infinity)%Q
  else fl (a * b).

(** [sum] over integers and over floats, as Python folds it from 0. *)
Definition sum (l : list Z) : Z := fold_left Z.add l 0%Z.
Definition fsum (l : list Q) : Q := fold_left fadd l 0%Q.

(** [round(x, 2)] as CPython 2.7 computes it: an infinity is returned as it
    is; otherwise the exact value of [x] is rounded to the nearest multiple
    of 1/100, halves away from zero, and the float nearest to that decimal
    is returned. *)
Definition round2 (x : Q) : Q :=
  if isInfinite x then x
  else if Qle_bool 0 x
  then fl (Qmake (Qfloor (x * 100 + (1 # 2))%Q) 100)
  else fl (Qopp (Qmake (Qfloor (- x * 100 + (1 # 2))%Q) 100)).

(** [totalFitness]: the sum of the keys of [self.frequency]. *)
Definition totalFitness (frequency : list (Z * list Z)) : Z :=
  fold_left (fun total kv => (total + kv.1)%Z) frequency 0%Z.

(** [[float(key) / float(totalFitness) for key in self.frequency]]: each
    element converts the key, then the total, then divides; the first
    failure ends the comprehension. *)
Fixpoint weights (keys : list (Z * list Z)) (total : Z) : Outcome (list Q) :=
  match keys with
  | [] => Done []
  | kv :: keys' =>
      let* a := float_of_int kv.1 in
      let* b := float_of_int total in
      let* w := fdiv a b in
      let* ws := weights keys' total in
      Done (w :: ws)
  end.

Definition weightedFitness (frequency : list (Z * list Z)) : Outcome (list Q) :=
  weights frequency (totalFitness frequency).

(** The cumulative percentage thresholds:
    [round(sum(weightedFitness[:i + 1]) * 100, 2)]. *)
Definition probabilities (weighted : list Q) : list Q :=
  map (fun i => round2 (fmul (fsum (take (i + 1) weighted)) 100))
      (seq 0 (length weighted)).

(** One draw: the [for (n, individual) in enumerate(population)] scan with
    its [break].  [None] when the scan ends without a hit. *)
Fixpoint pick (thresholds : list Q) (probability : Q) (n : nat)
    (population : list Gene) : Outcome (option Gene) :=
  match population with
  | [] => Done None
  | individual :: population' =>
      let* threshold := fromOption IndexError (thresholds !! n) in
      if Qle_bool probability threshold then Done (Some individual)
      else pick thresholds probability (S n) population'
  end.

(** [for i in range(count)], one [random.uniform(0, 100)] draw per pass. *)
Fixpoint selectionLoop (count : nat) (thresholds : list Q)
    (population newPopulation : list Gene) (draws : list Q)
  : Outcome (list Gene * list Q) :=
  match count with
  | 0 => Done (newPopulation, draws)
  | S count' =>
      match draws with
      | [] => Starved
      | probability :: draws' =>
          let* hit := pick thresholds probability 0 population in
          let newPopulation :=
            match hit with
            | Some individual => newPopulation ++ [individual]
            | None => newPopulation
            end in
          selectionLoop count' thresholds population newPopulation draws'
      end
  end.

Definition selection (count : nat) (population : list Gene)
    (self : Genetic) (draws : list Q) : Outcome (Genetic * list Q) :=
  let* weighted := weightedFitness (frequency self) in
  let* (newPopulation, draws') :=
    selectionLoop count (probabilities weighted) population [] draws in
  Done (set_selectedGenes newPopulation self, draws').

(** ** generatePopulation *)

(** [while len(binaryString) < bound: binaryString.append(c)]; the loop runs
    at most [bound] times. *)
Fixpoint fill (fuel bound : nat) (c : ascii) (binaryString : Gene) : Gene :=
  if length binaryString <? bound then
    match fuel with
    | 0 => binaryString
    | S fuel' => fill fuel' bound c (binaryString ++ [c])
    end
  else binaryString.

(** [x[i], x[j] = x[j], x[i]] on indices of the list. *)
Definition swap {A : Type} (i j : nat) (x : list A) : list A :=
  match x !! i, x !! j with
  | Some xi, Some xj => <[j := xi]> (<[i := xj]> x)
  | _, _ => x
  end.

(** [random.shuffle]: for [i] from [len(x) - 1] down to 1, exchange [x[i]]
    with [x[j]] for a random [j] of [0..i]. *)
Fixpoint shuffleLoop {A : Type} (i : nat) (x : list A) (draws : list nat)
  : Outcome (list A * list nat) :=
  match i with
  | 0 => Done (x, draws)
  | S i' =>
      match draws with
      | [] => Starved
      | raw :: draws' => shuffleLoop i' (swap i (randint 0 i raw) x) draws'
      end
  end.

Definition shuffle {A : Type} (x : list A) (draws : list nat)
  : Outcome (list A * list nat) :=
  shuffleLoop (length x - 1) x draws.

(** The [for i in range(0, size)] loop; [binaryString] is the local list,
    empty on entry and reset at the end of every pass.  The parameter
    [length] is never read. *)
Fixpoint generateLoop (size : nat) (binaryString : Gene)
    (self : Genetic) (draws : list nat) : Outcome (Genetic * list nat) :=
  match size with
  | 0 => Done (self, draws)
  | S size' =>
      let binaryString := fill 50 50 "0" binaryString in
      let binaryString := fill 100 100 "1" binaryString in
      let* (shuffledString, draws') := shuffle binaryString draws in
      let self := set_population (population self ++ [shuffledString]) self in
      generateLoop size' [] self draws'
  end.

Definition generatePopulation (size length : nat) (self : Genetic)
    (draws : list nat) : Outcome (Genetic * list nat) :=
  generateLoop size [] self draws.

(** ** partition *)

(** The [enumerate(gene)] loop for one gene. *)
Fixpoint partitionGene (instance : list Z) (i : nat) (gene : Gene)
    (subsetOne subsetTwo : list Z) : Outcome (list Z * list Z) :=
  match gene with
  | [] => Done (subsetOne, subsetTwo)
  | chromosome :: gene' =>
      let* subsetOne :=
        if Ascii.eqb chromosome "0"
        then let* v := fromOption IndexError (instance !! i) in
             Done (subsetOne ++ [v])
        else Done subsetOne in
      let* subsetTwo :=
        if Ascii.eqb chromosome "1"
        then let* v := fromOption IndexError (instance !! i) in
             Done (subsetTwo ++ [v])
        else Done subsetTwo in
      partitionGene instance (S i) gene' subsetOne subsetTwo
  end.

Fixpoint partitionLoop (genes : list Gene) (self : Genetic) : Outcome Genetic :=
  match genes with
  | [] => Done self
  | gene :: genes' =>
      let* subset := partitionGene (self_list self) 0 gene [] [] in
      partitionLoop genes'
        (set_numericalPopulation (numericalPopulation self ++ [subset]) self)
  end.

Definition partition (self : Genetic) : Outcome Genetic :=
  partitionLoop (population self) self.

(** ** fitnessAssessment *)

Definition difference (gene : list Z * list Z) : Z :=
  Z.abs (sum gene.1 - sum gene.2).

Definition differences (population : list (list Z * list Z)) : list Z :=
  map difference population.

(** [sorted] on integers. *)
Definition sorted (l : list Z) : list Z := merge_sort Z.le l.

(** [l.index(x)]: position of the first occurrence. *)
Fixpoint index (x : Z) (l : list Z) : option nat :=
  match l with
  | [] => None
  | y :: l' => if (y =? x)%Z then Some 0 else S <$> index x l'
  end.

(** Dictionary access [d[k]] and the in-place [d[k].append(v)]. *)
Fixpoint getitem (k : Z) (d : list (Z * list Z)) : option (list Z) :=
  match d with
  | [] => None
  | (k', bucket) :: d' => if (k' =? k)%Z then Some bucket else getitem k d'
  end.

Fixpoint appenditem (k v : Z) (d : list (Z * list Z)) : option (list (Z * list Z)) :=
  match d with
  | [] => None
  | (k', bucket) :: d' =>
      if (k' =? k)%Z then Some ((k', bucket ++ [v]) :: d')
      else cons (k', bucket) <$> appenditem k v d'
  end.

(** The [for difference in sortedDifferences] loop. *)
Fixpoint fitnessLoop (todo sortedDifferences : list Z) (self : Genetic)
  : Outcome Genetic :=
  match todo with
  | [] => Done self
  | d :: todo' =>
      let* position := fromOption ValueError (index d sortedDifferences) in
      let fitness := (Z.of_nat (length sortedDifferences) - 1 - Z.of_nat position)%Z in
      let self := set_populationFitness (populationFitness self ++ [fitness]) self in
      let* table := fromOption KeyError (appenditem fitness d (frequency self)) in
      fitnessLoop todo' sortedDifferences (set_frequency table self)
  end.

Definition fitnessAssessment (population : list (list Z * list Z))
    (self : Genetic) : Outcome Genetic :=
  let sortedDifferences := sorted (differences population) in
  fitnessLoop sortedDifferences sortedDifferences self.

(** ** evaluateConvergence *)

(** The values the comparison [value < convergence] meets: a bucket of the
    table (a list) and the threshold (a number). *)
Inductive PyValue : Type :=
| PyInt (z : Z)
| PyList (l : list Z).

Fixpoint list_lt (x y : list Z) : bool :=
  match x, y with
  | _, [] => false
  | [], _ :: _ => true
  | a :: x', b :: y' => if (a =? b)%Z then list_lt x' y' else (a <? b)%Z
  end.

(** Python 2 [<]: numbers among themselves, lists lexicographically, and a
    number below every value that is not a number. *)
Definition py_lt (a b : PyValue) : bool :=
  match a, b with
  | PyInt x, PyInt y => (x <? y)%Z
  | PyInt _, PyList _ => true
  | PyList _, PyInt _ => false
  | PyList x, PyList y => list_lt x y
  end.

(** [for key, value in frequency.iteritems()]: a pass whose test holds
    prints the first message and then fails on the name [population], which
    no scope of the module binds.  The result lists the pairs reported. *)
Fixpoint evaluateConvergence (frequency : list (Z * list Z)) (convergence : Z)
  : Outcome (list (Z * list Z)) :=
  match frequency with
  | [] => Done []
  | (key, value) :: frequency' =>
      if py_lt (PyList value) (PyInt convergence) then Raised NameError
      else evaluateConvergence frequency' convergence
  end.

(** ** mutation *)

Definition Qlt_bool (x y : Q) : bool := negb (Qle_bool y x).

(** [int(c)] for a one-character string. *)
Definition int_of_char (c : ascii) : Outcome Z :=
  let n := nat_of_ascii c in
  if (48 <=? n) && (n <=? 57) then Done (Z.of_nat (n - 48)) else Raised ValueError.

(** [str(int(not int(c)))]. *)
Definition flipped (c : ascii) : Outcome ascii :=
  let* v := int_of_char c in
  Done (if (v =? 0)%Z then "1" else "0").

(** The [for chromosome in gene] loop with its three accumulators. *)
Fixpoint mutationLoop (rate : Q) (gene mutatedGene : Gene)
    (mutatedOnes mutatedZeroes : nat) (draws : list Q)
  : Outcome (Gene * nat * nat * list Q) :=
  match gene with
  | [] => Done (mutatedGene, mutatedOnes, mutatedZeroes, draws)
  | chromosome :: gene' =>
      match draws with
      | [] => Starved
      | mutationProbability :: draws' =>
          if Qlt_bool mutationProbability rate then
            let* bit := flipped chromosome in
            if Ascii.eqb chromosome "0"
            then mutationLoop rate gene' (mutatedGene ++ [bit])
                   mutatedOnes (mutatedZeroes + 1) draws'
            else mutationLoop rate gene' (mutatedGene ++ [bit])
                   (mutatedOnes + 1) mutatedZeroes draws'
          else mutationLoop rate gene' (mutatedGene ++ [chromosome])
                 mutatedOnes mutatedZeroes draws'
      end
  end.

Definition mutation (self : Genetic) (gene : Gene) (draws : list Q)
  : Outcome (Gene * list Q) :=
  let* (mutatedGene, mutatedOnes, mutatedZeroes, draws') :=
    mutationLoop (mutationRate self) gene [] 0 0 draws in
  if mutatedOnes =? mutatedZeroes then Done (mutatedGene, draws')
  else Done (gene, draws').

(** ** main *)

(** The driver, with one tape per kind of draw. *)
Definition main (self : Genetic) (shuffleDraws : list nat)
    (uniformDraws : list Q) (intDraws : list nat) : Outcome Genetic :=
  let* (self, _) := generatePopulation 20 100 self shuffleDraws in
  let* self := partition self in
  let* self := fitnessAssessment (numericalPopulation self) self in
  let* (self, _) := selection 10 (population self) self uniformDraws in
  let* (self, _) := crossover self intDraws in
  Done self.

(** ** Vocabulary of the specification *)

(** A bit string. *)
Definition isBit (c : ascii) : Prop := c = "0" \/ c = "1".

(** A balanced genotype of length 100. *)
Definition balanced (gene : Gene) : Prop :=
  length gene = 100 /\ count "0" gene = 50 /\ count "1" gene = 50.

(** Number of positions holding [a] before and [b] after. *)
Fixpoint flips (a b : ascii) (before after : Gene) : nat :=
  match before, after with
  | x :: before', y :: after' =>
      (if Ascii.eqb x a && Ascii.eqb y b then 1 else 0) + flips a b before' after'
  | _, _ => 0
  end.

(** The instance values standing at the positions where the gene holds [c],
    in index order. *)
Fixpoint routed (c : ascii) (gene : Gene) (instance : list Z) : list Z :=
  match gene, instance with
  | x :: gene', v :: instance' =>
      if Ascii.eqb x c then v :: routed c gene' instance'
      else routed c gene' instance'
  | _, _ => []
  end.

(** The phenotype of a gene: the values routed by its zero-bits and by
    its one-bits. *)
Definition phenotype (instance : list Z) (gene : Gene) : list Z * list Z :=
  (routed "0" gene instance, routed "1" gene instance).

(** What one roulette draw [u] yields: the first member whose threshold is
    at least [u], or nothing when every member's threshold is below [u]. *)
Inductive picked (thresholds : list Q) (population : list Gene) (u : Q)
  : option Gene -> Prop :=
| picked_hit n individual t :
    population !! n = Some individual ->
    thresholds !! n = Some t ->
    (u <= t)%Q ->
    (forall m t', m < n -> thresholds !! m = Some t' -> ~ (u <= t')%Q) ->
    picked thresholds population u (Some individual)
| picked_miss :
    (forall n t, n < length population -> thresholds !! n = Some t -> ~ (u <= t)%Q) ->
    picked thresholds population u None.

(** The exact cumulative percentage of the weights 0..i among the weights
    0..19, the exact rounding of a percentage to hundredths, and the
    thresholds in hundredths when no operation rounds. *)
Definition cumulativePercent (i : nat) : Q :=
  (inject_Z (sum (map Z.of_nat (seq 0 (S i)))) * 100 / 190)%Q.

Definition hundredths (q : Q) : Z := Qfloor (q * 100 + (1 # 2))%Q.

Definition tableHundredths : list Z :=
  [0; 53; 158; 316; 526; 789; 1105; 1474; 1895; 2368;
   2895; 3474; 4105; 4789; 5526; 6316; 7158; 8053; 9000; 10000]%Z.

(** The weights and the thresholds computed from the table of [__init__]. *)
Definition tableWeights : list Q :=
  match weightedFitness frequencyTable with
  | Done weighted => weighted
  | _ => []
  end.

Definition tableThresholds : list Q := probabilities tableWeights.

(** Twenty distinct members: member [i] is a run of [i] ones. *)
Definition rankedPopulation : list Gene := map (times "1") (seq 0 20).

(** The members kept from a sequence of draws. *)
Definition kept (hits : list (option Gene)) : list Gene := omap id hits.

(** The rank of a difference [d] in a sorted sequence: the number of
    members that stand after the first occurrence of [d]. *)
Definition firstRank (sortedDifferences : list Z) (d : Z) : Z :=
  (Z.of_nat (length sortedDifferences) - 1
   - Z.of_nat (default 0%nat (index d sortedDifferences)))%Z.

(** The phenotypes of four individuals whose differences are 0, 5, 2, 2. *)
Definition tiedPopulation : list (list Z * list Z) :=
  [([0], []); ([5], []); ([2], []); ([], [2])]%Z.

(** The ranks [0, 1, ..., n-1]. *)
Definition ranks (n : nat) : list Z := map Z.of_nat (seq 0 n).

(** Draws under which [random.shuffle] leaves a list of [n + 1] items as it
    is, and draws under which it reverses a list of 100 items. *)
Definition keepDraws (n : nat) : list nat := rev (seq 1 n).
Definition reverseDraws : list nat := seq 0 50 ++ rev (seq 1 49).

(** Two balanced genes whose crossover at point 49 joins two runs of ones. *)
Definition onesThenZeroes : Gene := times "1" 50 ++ times "0" 50.
Definition zeroesThenOnes : Gene := times "0" 50 ++ times "1" 50.

(** ** A run of the driver

    The instance is 1..100.  The shuffles leave every individual as
    [zeroesThenOnes] except the second, which is reversed; the roulette draws
    select the second individual once and the third nine times; the first
    crossover pairs the two at point 49, the ten others pair the third
    individual with itself at point 99. *)
Definition runSample : list Z := map Z.of_nat (seq 1 100).
Definition runShuffles : list nat :=
  keepDraws 99 ++ reverseDraws ++ concat (replicate 18 (keepDraws 99)).
Definition runUniforms : list Q := (1 # 2)%Q :: replicate 9 1%Q.
Definition runInts : list nat := [0; 1; 49] ++ concat (replicate 10 [1; 1; 99]).

(** The table after one assessment of the phenotype of [5, 3, 8, 1] under
    the genotype 0011: bucket 0 holds the difference 1. *)
Definition assessedTable : list (Z * list Z) :=
  (0%Z, [1%Z]) :: map (fun i => (Z.of_nat i, [])) (seq 1 19).

(** ** Vocabulary of the further properties *)

(** A gene cut from two members of the pool at a point of 0..99. *)
Definition childOf (pool : list Gene) (gene : Gene) : Prop :=
  exists a b p, a ∈ pool /\ b ∈ pool /\ p <= 99 /\ gene = child p a b.

(** The tape on which every pair of parent draws is followed by the
    crossover point 99, and the parents those draws designate. *)
Definition pointDraws (pairs : list (nat * nat)) : list nat :=
  flat_map (fun ab => [ab.1; ab.2; 99]) pairs.

Definition parentsOf (pool : list Gene) (pairs : list (nat * nat)) : list Gene :=
  flat_map (fun ab =>
              match pool !! randint 0 9 ab.1, pool !! randint 0 9 ab.2 with
              | Some a, Some b => [a; b]
              | _, _ => []
              end) pairs.

(** * Properties *)

(** ** Worked values *)

Example validate_balanced : validateGene onesThenZeroes = true.
Proof. reflexivity. Qed.

Example validate_all_ones : validateGene (times "1" 100) = true.
Proof. reflexivity. Qed.

Example validate_all_zeroes : validateGene (times "0" 100) = false.
Proof. reflexivity. Qed.

Example thresholds_of_the_table :
  (let* w := weightedFitness frequencyTable in
   Done (map (fun q => Qle_bool q 90 && Qle_bool 90 q) (probabilities w)))
  = Done (replicate 18 false ++ [true; false]).
Proof. vm_compute. reflexivity. Qed.

Example last_threshold_is_100 :
  (let* w := weightedFitness frequencyTable in
   Done (Qeq_bool 100 <$> last (probabilities w)))
  = Done (Some true).
Proof. vm_compute. reflexivity. Qed.

(** The float nearest to 80.53 lies above 80.53, and a draw equal to it
    selects the member of index 17. *)
Example threshold_17_is_above_its_decimal :
  tableThresholds !! 17 = Some (fl (8053 # 100)) /\
  (8053 # 100 < fl (8053 # 100))%Q.
Proof. vm_compute. split; reflexivity. Qed.

Example draw_at_threshold_17 :
  (let* (self, _) := selection 1 rankedPopulation (init []) [fl (8053 # 100)] in
   Done (selectedGenes self))
  = Done [times "1" 17].
Proof. vm_compute. reflexivity. Qed.

(** With the keys 3 and 19997 the first cumulative percentage is the float
    below 0.015, which [round] takes down to 0.01. *)
Example thresholds_of_a_near_tie :
  (let* w := weightedFitness [(3, []); (19997, [])]%Z in Done (probabilities w))
  = Done [fl (1 # 100); 100%Q].
Proof. vm_compute. reflexivity. Qed.

(** A key beyond the range of a float raises OverflowError, also where the
    sum of the keys is 0; a sum of 0 alone raises ZeroDivisionError. *)
Example weights_of_a_huge_key :
  weightedFitness [(2 ^ 1024, []); (- 2 ^ 1024, [])]%Z = Raised OverflowError.
Proof. vm_compute. reflexivity. Qed.

Example weights_of_a_zero_sum :
  weightedFitness [(1, []); (-1, [])]%Z = Raised ZeroDivisionError.
Proof. vm_compute. reflexivity. Qed.

Example partition_literal :
  partitionGene [5; 3; 8; 1]%Z 0 ["0"; "0"; "1"; "1"] [] []
  = Done ([5; 3]%Z, [8; 1]%Z).
Proof. reflexivity. Qed.

Example fitness_literal :
  (let* self := fitnessAssessment tiedPopulation (init []) in
   Done (populationFitness self))
  = Done [3; 2; 2; 0]%Z.
Proof. vm_compute. reflexivity. Qed.

Example assessedTable_is_assessed :
  (let* self := fitnessAssessment [([5; 3], [8; 1])]%Z (init [5; 3; 8; 1]%Z) in
   Done (frequency self))
  = Done assessedTable.
Proof. reflexivity. Qed.

(** ** validateGene and the balance invariant *)

Lemma validateGene_true (gene : Gene) :
  validateGene gene = true <-> count "0" gene = 0 \/ count "1" gene = 50.
Proof.
  unfold validateGene.
  destruct (Nat.eqb_spec (count "0" gene) 0) as [H0 | H0];
    destruct (Nat.eqb_spec (count "1" gene) 50) as [H1 | H1];
    simpl; intuition congruence.
Qed.

(** C2 (code defect).  The two balanced genes 1^50 0^50 and 0^50 1^50 cross at
    point 49 into the gene of 100 ones, which has no zero-bit; [validateGene]
    accepts it, and the run of the driver described above puts it at the
    head of the new population.  In general [validateGene] accepts exactly
    the genes without zero-bit and the genes with 50 one-bits. *)
Theorem validateGene_accepts_all_ones_child :
  balanced onesThenZeroes /\ balanced zeroesThenOnes /\
  child 49 onesThenZeroes zeroesThenOnes = times "1" 100 /\
  validateGene (times "1" 100) = true /\
  count "0" (times "1" 100) = 0 /\ count "1" (times "1" 100) = 100 /\
  (exists self,
     main (init runSample) runShuffles runUniforms runInts = Done self /\
     population self !! 0 = Some (times "1" 100)) /\
  forall gene,
    validateGene gene = true <-> count "0" gene = 0 \/ count "1" gene = 50.
Proof.
  split; [by repeat split |]. split; [by repeat split |].
  do 4 (split; [reflexivity |]). split; [| apply validateGene_true].
  eexists. split; [vm_compute; reflexivity | reflexivity].
Qed.

(** ** Size of the new generation *)

(** C3 (code defect).  From a pool of ten balanced genes, [crossover] returns
    with a population of 21 children: the first pair yields one child only
    (the gene of ones is accepted, the gene of zeroes is not) and every later
    pair yields two.  The same happens in the run of the driver. *)
Theorem crossover_leaves_21_children :
  let pool := onesThenZeroes :: replicate 9 zeroesThenOnes in
  length pool = 10 /\ Forall balanced pool /\
  (exists after,
     crossover (set_selectedGenes pool (init runSample)) runInts = Done (after, []) /\
     length (population after) = 21 /\ generation after = 2%Z) /\
  (exists self,
     main (init runSample) runShuffles runUniforms runInts = Done self /\
     length (population self) = 21 /\ generation self = 2%Z).
Proof.
  cbv zeta. split; [reflexivity |]. split.
  - repeat constructor.
  - split; eexists; (split; [vm_compute; reflexivity | split; reflexivity]).
Qed.

(** ** generatePopulation *)

(** C6 (code defect).  [generatePopulation(1, 4)] appends a genotype of
    length 100 holding 50 zero-bits and 50 one-bits, not one of length 4. *)
Theorem generatePopulation_ignores_length :
  exists self,
    generatePopulation 1 4 (init [5; 3; 8; 1]%Z) (keepDraws 99) = Done (self, []) /\
    population self = [zeroesThenOnes] /\
    length zeroesThenOnes = 100 /\
    count "0" zeroesThenOnes = 50 /\ count "1" zeroesThenOnes = 50.
Proof.
  eexists. split; [vm_compute; reflexivity |]. repeat split.
Qed.

(** ** generatePopulation: the genotypes of the initial population *)

Lemma count_Permutation (c : ascii) (l k : Gene) :
  l ≡ₚ k -> count c l = count c k.
Proof.
  induction 1 as [| x l k _ IH | x y l | l k m _ IH1 _ IH2]; cbn; lia.
Qed.

Lemma insert_Permutation {A : Type} (l : list A) (i : nat) (x y : A) :
  l !! i = Some x -> <[i := y]> l ≡ₚ y :: delete i l.
Proof.
  intros Hi. apply lookup_lt_Some in Hi.
  rewrite insert_take_drop, delete_take_drop by exact Hi.
  by rewrite Permutation_middle.
Qed.

Lemma swap_Permutation {A : Type} (i j : nat) (x : list A) : swap i j x ≡ₚ x.
Proof.
  unfold swap.
  destruct (x !! i) as [xi |] eqn:Hi; [| reflexivity].
  destruct (x !! j) as [xj |] eqn:Hj; [| reflexivity].
  destruct (decide (i = j)) as [-> | Hne].
  - rewrite list_insert_insert_eq. rewrite Hi in Hj. injection Hj as <-.
    by rewrite list_insert_id.
  - assert (Hj' : <[i := xj]> x !! j = Some xj)
      by (by rewrite list_lookup_insert_ne).
    transitivity (xi :: delete j (<[i := xj]> x));
      [by apply insert_Permutation with (x := xj) |].
    transitivity (xi :: delete i x);
      [| symmetry; by apply delete_Permutation].
    apply perm_skip. apply (Permutation_cons_inv (a := xj)).
    transitivity (<[i := xj]> x);
      [symmetry; by apply delete_Permutation
      | by apply insert_Permutation with (x := xi)].
Qed.

Lemma shuffleLoop_Permutation {A : Type} :
  forall (i : nat) (x : list A) (draws : list nat),
  i <= length draws ->
  exists y, shuffleLoop i x draws = Done (y, drop i draws) /\ y ≡ₚ x.
Proof.
  induction i as [| i IH]; intros x draws Hdraws.
  - exists x. by rewrite drop_0.
  - destruct draws as [| raw draws]; cbn [length] in Hdraws; [lia |].
    cbn [shuffleLoop drop].
    destruct (IH (swap (S i) (randint 0 (S i) raw) x) draws) as (y & Hrun & Hperm);
      [lia |].
    exists y. split; [exact Hrun |]. by rewrite Hperm, swap_Permutation.
Qed.

Lemma zeroesThenOnes_balanced : balanced zeroesThenOnes.
Proof. by repeat split. Qed.

(** Whatever [size] and [length] are, a tape with 99 draws per individual
    yields [size] new genotypes of length 100, each with 50 zero-bits and 50
    one-bits. *)
Lemma generatePopulation_balanced (size len : nat) (self : Genetic) (draws : list nat) :
  99 * size <= length draws ->
  exists self' new,
    generatePopulation size len self draws = Done (self', drop (99 * size) draws) /\
    population self' = population self ++ new /\
    length new = size /\
    Forall balanced new.
Proof.
  unfold generatePopulation. revert self draws.
  induction size as [| size IH]; intros self draws Hdraws.
  - exists self, []. cbn. rewrite drop_0, app_nil_r. by repeat split.
  - cbn [generateLoop].
    change (fill 100 100 "1" (fill 50 50 "0" [])) with zeroesThenOnes.
    unfold shuffle. change (length zeroesThenOnes - 1) with 99.
    destruct (shuffleLoop_Permutation 99 zeroesThenOnes draws) as (gene & Hrun & Hperm);
      [lia |].
    rewrite Hrun. cbn [obind].
    destruct (IH (set_population (population self ++ [gene]) self) (drop 99 draws))
      as (self' & new & Hloop & Hpop & Hsize & Hall).
    { rewrite length_drop. lia. }
    exists self', (gene :: new). rewrite Hloop, Hpop. cbn [population set_population].
    rewrite drop_drop, <- app_assoc.
    replace (99 + 99 * size) with (99 * S size) by lia.
    split; [reflexivity |]. split; [reflexivity |]. split; [cbn; lia |].
    constructor; [| exact Hall].
    destruct zeroesThenOnes_balanced as (Hlen & Hzero & Hone).
    unfold balanced.
    by rewrite (Permutation_length Hperm), !(count_Permutation _ _ _ Hperm).
Qed.

(** ** evaluateConvergence *)

Lemma evaluateConvergence_silent (frequency : list (Z * list Z)) (convergence : Z) :
  evaluateConvergence frequency convergence = Done [].
Proof.
  induction frequency as [| [key value] frequency IH]; simpl; [reflexivity | exact IH].
Qed.

(** C9 (code defect).  With the difference 1 stored in bucket 0 and the
    threshold 5, [evaluateConvergence] reports nothing: it compares the bucket,
    a list, with the threshold, and a list is never below a number. *)
Theorem evaluateConvergence_reports_nothing :
  getitem 0 assessedTable = Some [1%Z] /\ (1 < 5)%Z /\
  evaluateConvergence assessedTable 5 = Done [] /\
  py_lt (PyList [1%Z]) (PyInt 5) = false /\
  forall frequency convergence, evaluateConvergence frequency convergence = Done [].
Proof. repeat split. apply evaluateConvergence_silent. Qed.

(** ** The crossover point and the two children *)

Lemma randint_range (a b raw : nat) : a <= b -> a <= randint a b raw <= b.
Proof.
  intros Hab. unfold randint.
  pose proof (Nat.mod_upper_bound raw (b - a + 1)). lia.
Qed.

Lemma randint_onto (a b v : nat) : a <= v <= b -> randint a b (v - a) = v.
Proof.
  intros Hv. unfold randint. rewrite Nat.mod_small by lia. lia.
Qed.

Lemma child_concat (p : nat) (a b : Gene) :
  length b <= 100 -> child p a b = take (p + 1) a ++ drop (p + 1) b.
Proof.
  intros Hb. unfold child, slice. rewrite drop_0. f_equal. f_equal.
  apply take_ge. exact Hb.
Qed.

Lemma child_length (p : nat) (a b : Gene) :
  length a = length b -> length b <= 100 -> length (child p a b) = length a.
Proof.
  intros Hab Hb. rewrite child_concat by exact Hb.
  rewrite length_app, length_take, length_drop. lia.
Qed.

(** One pass of the inner loop, entered with both flags down. *)
Lemma crossoverPair_pass (parentOne parentTwo : Gene) (generation : list Gene)
    (raw : nat) (draws : list nat) :
  let childOne := child (drawCrossoverPoint raw) parentOne parentTwo in
  let childTwo := child (drawCrossoverPoint raw) parentTwo parentOne in
  crossoverPair parentOne parentTwo false false generation (raw :: draws) =
  match validateGene childOne, validateGene childTwo with
  | true, true => Done (generation ++ [childOne; childTwo], draws)
  | true, false => Done (generation ++ [childOne], draws)
  | false, true => Done (generation ++ [childTwo], draws)
  | false, false => crossoverPair parentOne parentTwo false false generation draws
  end.
Proof.
  cbv zeta. simpl.
  destruct (validateGene (child (drawCrossoverPoint raw) parentOne parentTwo));
    destruct (validateGene (child (drawCrossoverPoint raw) parentTwo parentOne));
    simpl; try reflexivity.
  - rewrite <- app_assoc. destruct draws; reflexivity.
  - destruct draws; reflexivity.
  - destruct draws; reflexivity.
Qed.

(** C5 (as the claim states it, refuted).  The draw 99 gives the crossover
    point 99, outside 0..98; at that point each child is a copy of one
    parent.  The end of the suffix is the constant 100: two parents of
    length 101 have children of length 100. *)
Lemma crossover_point_reaches_99 :
  drawCrossoverPoint 99 = 99 /\
  ~ (forall raw, drawCrossoverPoint raw <= 100 - 2) /\
  child 99 onesThenZeroes zeroesThenOnes = onesThenZeroes /\
  crossoverPair onesThenZeroes zeroesThenOnes false false [] [99]
  = Done ([onesThenZeroes; zeroesThenOnes], []) /\
  length (child 49 (times "0" 101) (times "1" 101)) = 100.
Proof.
  split; [reflexivity |]. split.
  - intros H. specialize (H 99). vm_compute in H. lia.
  - repeat split.
Qed.

(** C5 (amended).  The crossover point lies in 0..99 and every point of
    0..99 is drawn by some draw; for two parents of one length, at most 100,
    childOne is parentOne[0..p] followed by parentTwo[p+1..], childTwo is
    parentTwo[0..p] followed by parentOne[p+1..], both have the parents'
    length, and one pass of the inner loop appends exactly those of the two
    that [validateGene] accepts. *)
Theorem crossover_children (parentOne parentTwo : Gene) (raw : nat) :
  length parentOne = length parentTwo ->
  length parentOne <= 100 ->
  let p := drawCrossoverPoint raw in
  let childOne := child p parentOne parentTwo in
  let childTwo := child p parentTwo parentOne in
  p <= 99 /\
  (forall q, q <= 99 -> drawCrossoverPoint q = q) /\
  childOne = take (p + 1) parentOne ++ drop (p + 1) parentTwo /\
  childTwo = take (p + 1) parentTwo ++ drop (p + 1) parentOne /\
  length childOne = length parentOne /\
  length childTwo = length parentOne /\
  forall generation draws,
    crossoverPair parentOne parentTwo false false generation (raw :: draws) =
    match validateGene childOne, validateGene childTwo with
    | true, true => Done (generation ++ [childOne; childTwo], draws)
    | true, false => Done (generation ++ [childOne], draws)
    | false, true => Done (generation ++ [childTwo], draws)
    | false, false => crossoverPair parentOne parentTwo false false generation draws
    end.
Proof.
  intros Hlen Hmax. cbv zeta. repeat split.
  - unfold drawCrossoverPoint. pose proof (randint_range 0 99 raw). lia.
  - intros q Hq. unfold drawCrossoverPoint.
    pose proof (randint_onto 0 99 q) as H. rewrite Nat.sub_0_r in H. apply H. lia.
  - apply child_concat. lia.
  - apply child_concat. lia.
  - apply child_length; lia.
  - rewrite child_length; lia.
  - intros generation draws. apply crossoverPair_pass.
Qed.

Lemma crossover_children_witness :
  length onesThenZeroes = length zeroesThenOnes /\
  length onesThenZeroes <= 100 /\
  child (drawCrossoverPoint 30) onesThenZeroes zeroesThenOnes
  = take 31 onesThenZeroes ++ drop 31 zeroesThenOnes.
Proof.
  split; [reflexivity |]. split; [vm_compute; lia |].
  refine (proj1 (proj2 (proj2
    (crossover_children onesThenZeroes zeroesThenOnes 30 _ _)))).
  - reflexivity.
  - vm_compute; lia.
Defined.

(** ** crossover: what a returning call leaves *)

Lemma crossoverPair_grows (parentOne parentTwo : Gene) :
  forall (draws : list nat) (generation generation' : list Gene) (rest : list nat),
  crossoverPair parentOne parentTwo false false generation draws
  = Done (generation', rest) ->
  exists added,
    generation' = generation ++ added /\
    1 <= length added <= 2 /\
    Forall (fun gene => validateGene gene = true) added /\
    length rest < length draws.
Proof.
  induction draws as [| raw draws IH]; intros generation generation' rest Hrun.
  - discriminate.
  - rewrite crossoverPair_pass in Hrun. cbv zeta in Hrun.
    destruct (validateGene (child (drawCrossoverPoint raw) parentOne parentTwo)) eqn:Hone;
      destruct (validateGene (child (drawCrossoverPoint raw) parentTwo parentOne)) eqn:Htwo.
    + injection Hrun as <- <-. eexists. split; [reflexivity |].
      split; [cbn; lia |]. split; [by repeat constructor | cbn; lia].
    + injection Hrun as <- <-. eexists. split; [reflexivity |].
      split; [cbn; lia |]. split; [by repeat constructor | cbn; lia].
    + injection Hrun as <- <-. eexists. split; [reflexivity |].
      split; [cbn; lia |]. split; [by repeat constructor | cbn; lia].
    + destruct (IH _ _ _ Hrun) as (added & Hgen & Hsize & Hvalid & Hrest).
      exists added. repeat split; try done; try lia. cbn. lia.
Qed.

(** The fuel of the outer loop is no restriction: any two amounts that
    cover the tape give the same outcome. *)
Lemma crossoverLoop_fuel (pool : list Gene) :
  forall (fuel1 fuel2 : nat) (generation : list Gene) (draws : list nat),
  length draws <= fuel1 -> length draws <= fuel2 ->
  crossoverLoop fuel1 pool generation draws
  = crossoverLoop fuel2 pool generation draws.
Proof.
  induction fuel1 as [| fuel1 IH]; intros fuel2 generation draws H1 H2.
  - destruct draws; [| cbn in H1; lia]. destruct fuel2; cbn;
      destruct (length generation <? 20); reflexivity.
  - destruct fuel2 as [| fuel2].
    + destruct draws; [| cbn in H2; lia]. cbn.
      destruct (length generation <? 20); reflexivity.
    + cbn [crossoverLoop]. destruct (length generation <? 20); [| reflexivity].
      destruct draws as [| rawOne [| rawTwo draws]]; try reflexivity.
      destruct (pool !! randint 0 9 rawOne) as [parentOne |]; [| reflexivity].
      destruct (pool !! randint 0 9 rawTwo) as [parentTwo |]; [| reflexivity].
      cbn [fromOption obind].
      destruct (crossoverPair parentOne parentTwo false false generation draws)
        as [[generation' rest] | |] eqn:Hpair; try reflexivity.
      cbn [obind]. apply crossoverPair_grows in Hpair as (_ & _ & _ & _ & Hrest).
      cbn [length] in H1, H2. apply IH; lia.
Qed.

Lemma crossoverLoop_size (pool : list Gene) :
  forall (fuel : nat) (generation generation' : list Gene) (draws rest : list nat),
  crossoverLoop fuel pool generation draws = Done (generation', rest) ->
  exists added,
    generation' = generation ++ added /\
    Forall (fun gene => validateGene gene = true) added /\
    (length generation < 20 -> 20 <= length generation' <= 21) /\
    (20 <= length generation -> added = []).
Proof.
  induction fuel as [| fuel IH]; intros generation generation' draws rest Hrun;
    cbn [crossoverLoop] in Hrun;
    destruct (Nat.ltb_spec (length generation) 20) as [Hshort | Hfull];
    try discriminate.
  - injection Hrun as <- <-. exists []. rewrite app_nil_r.
    repeat split; try done; lia.
  - destruct draws as [| rawOne [| rawTwo draws]]; try discriminate.
    + destruct (pool !! randint 0 9 rawOne); discriminate.
    + destruct (pool !! randint 0 9 rawOne) as [parentOne |]; [| discriminate].
      destruct (pool !! randint 0 9 rawTwo) as [parentTwo |]; [| discriminate].
      cbn [fromOption obind] in Hrun.
      destruct (crossoverPair parentOne parentTwo false false generation draws)
        as [[middle draws'] | |] eqn:Hpair; try discriminate.
      cbn [obind] in Hrun.
      apply crossoverPair_grows in Hpair as (first & -> & Hfirst & Hvalid & _).
      destruct (IH _ _ _ _ Hrun) as (later & -> & Hvalid' & Hgrow & Hstop).
      exists (first ++ later). rewrite app_assoc. split; [reflexivity |].
      split; [by apply Forall_app |]. split; [| lia].
      intros _. rewrite length_app in Hgrow, Hstop.
      destruct (Nat.lt_ge_cases (length generation + length first) 20) as [Hlt | Hge].
      * apply Hgrow, Hlt.
      * rewrite (Hstop Hge), app_nil_r, length_app. lia.
  - injection Hrun as <- <-. exists []. rewrite app_nil_r.
    repeat split; try done; lia.
Qed.

(** Whenever [crossover] returns, the population holds 20 or 21 genes, each
    accepted by [validateGene], and the generation counter has moved by one. *)
Lemma crossover_returns (self self' : Genetic) (draws rest : list nat) :
  crossover self draws = Done (self', rest) ->
  20 <= length (population self') <= 21 /\
  Forall (fun gene => validateGene gene = true) (population self') /\
  generation self' = (generation self + 1)%Z /\
  selectedGenes self' = selectedGenes self.
Proof.
  unfold crossover. intros Hrun.
  destruct (crossoverLoop (length draws) (selectedGenes self) [] draws)
    as [[newGeneration draws'] | |] eqn:Hloop; try discriminate.
  cbn [obind] in Hrun. injection Hrun as <- <-.
  apply crossoverLoop_size in Hloop as (added & -> & Hvalid & Hgrow & _).
  cbn. repeat split; try done; apply Hgrow; cbn; lia.
Qed.

(** ** Parent lookups of crossover *)

Lemma crossover_lookup_fails (self : Genetic) (raw : nat) (draws : list nat) :
  length (selectedGenes self) <= randint 0 9 raw ->
  crossover self (raw :: draws) = Raised IndexError.
Proof.
  intros Hout. unfold crossover. cbn [length crossoverLoop].
  change (0 <? 20) with true. cbv iota.
  rewrite (lookup_ge_None_2 _ _ Hout).
  destruct draws; reflexivity.
Qed.

Lemma pick_miss (thresholds : list Q) (u : Q) (population : list Gene) (n : nat) :
  n + length population <= length thresholds ->
  (forall m t, n <= m < n + length population ->
               thresholds !! m = Some t -> ~ (u <= t)%Q) ->
  pick thresholds u n population = Done None.
Proof.
  revert n. induction population as [| individual population IH]; intros n Hlen Hlow.
  - reflexivity.
  - cbn [pick]. cbn [length] in Hlen, Hlow.
    destruct (lookup_lt_is_Some_2 thresholds n) as [t Ht]; [lia |].
    rewrite Ht. cbn [fromOption obind].
    destruct (Qle_bool u t) eqn:Hle.
    + apply Qle_bool_iff in Hle. exfalso. apply (Hlow n t); [lia | exact Ht | exact Hle].
    + apply IH; [lia |]. intros m t' Hm. apply Hlow. lia.
Qed.

Lemma selectionLoop_miss (thresholds : list Q) (population newPopulation : list Gene)
    (count : nat) (u : Q) (draws : list Q) :
  length population <= length thresholds ->
  (forall n t, n < length population -> thresholds !! n = Some t -> ~ (u <= t)%Q) ->
  selectionLoop (S count) thresholds population newPopulation (u :: draws)
  = selectionLoop count thresholds population newPopulation draws.
Proof.
  intros Hlen Hlow. cbn [selectionLoop].
  rewrite pick_miss; [reflexivity | lia |].
  intros m t Hm. apply Hlow. lia.
Qed.

Lemma tableWeights_Done : weightedFitness frequencyTable = Done tableWeights.
Proof. vm_compute. reflexivity. Qed.

Lemma tableThresholds_values :
  tableThresholds = map (fun k => fl (k # 100)) tableHundredths.
Proof. vm_compute. reflexivity. Qed.

(** The thresholds of the table of [__init__]: twenty of them, none above
    100, the last one equal to 100. *)
Lemma table_thresholds :
  exists weighted,
    weightedFitness frequencyTable = Done weighted /\
    length (probabilities weighted) = 20 /\
    (forall n t, probabilities weighted !! n = Some t -> (t <= 100)%Q) /\
    exists last, probabilities weighted !! 19 = Some last /\ (100 <= last)%Q.
Proof.
  exists tableWeights. split; [apply tableWeights_Done |].
  fold tableThresholds. split; [vm_compute; reflexivity |]. split.
  - intros n t Ht. apply list_elem_of_lookup_2, list_elem_of_In in Ht.
    apply Qle_bool_iff. revert t Ht. apply forallb_forall.
    vm_compute. reflexivity.
  - exists 100%Q. split; [vm_compute; reflexivity |].
    apply Qle_bool_iff. vm_compute. reflexivity.
Qed.

Lemma selection_above_100 (self : Genetic) (population : list Gene)
    (count : nat) (u : Q) (draws : list Q) :
  frequency self = frequencyTable ->
  length population <= 20 ->
  (100 < u)%Q ->
  selection (S count) population self (u :: draws)
  = selection count population self draws.
Proof.
  intros Htable Hlen Hu. unfold selection. rewrite Htable.
  destruct table_thresholds as (weighted & -> & Hsize & Hbound & _).
  cbn [obind]. rewrite selectionLoop_miss; [reflexivity | by rewrite Hsize |].
  intros n t _ Ht Hle. apply Hbound in Ht.
  apply (Qlt_irrefl 100). eapply Qlt_le_trans; [exact Hu |].
  eapply Qle_trans; [exact Hle | exact Ht].
Qed.

(** C10.  Both parent indices of [crossover] lie in 0..9 and are looked up
    without a test: with ten or more selected genes every lookup succeeds;
    with fewer, a draw that falls on an index past the pool (index 9 always
    does) makes [crossover] raise IndexError.  A roulette draw above the
    threshold of every member of the population appends nothing (with the
    table of [__init__], whose last threshold is 100, so does every draw above
    100), so [selection(10, population)] can leave fewer than ten genes: it
    leaves none for a population of 19 and ten draws of 99. *)
Theorem crossover_needs_ten_parents :
  (forall (pool : list Gene) raw,
     10 <= length pool -> is_Some (pool !! randint 0 9 raw)) /\
  (forall self raw draws,
     length (selectedGenes self) < 10 ->
     randint 0 9 9 = 9 /\
     crossover self (9 :: draws) = Raised IndexError /\
     (length (selectedGenes self) <= randint 0 9 raw ->
      crossover self (raw :: draws) = Raised IndexError)) /\
  (forall thresholds population newPopulation count u draws,
     length population <= length thresholds ->
     (forall n t, n < length population -> thresholds !! n = Some t -> ~ (u <= t)%Q) ->
     selectionLoop (S count) thresholds population newPopulation (u :: draws)
     = selectionLoop count thresholds population newPopulation draws) /\
  (forall self population count u draws,
     frequency self = frequencyTable ->
     length population <= 20 ->
     (100 < u)%Q ->
     selection (S count) population self (u :: draws)
     = selection count population self draws) /\
  (exists self,
     selection 10 (replicate 19 zeroesThenOnes) (init runSample) (replicate 10 99%Q)
     = Done (self, []) /\
     selectedGenes self = [] /\
     forall draws, crossover self (9 :: draws) = Raised IndexError).
Proof.
  split; [| split; [| split; [| split; [apply selection_above_100 |]]]].
  - intros pool raw Hpool. apply lookup_lt_is_Some_2.
    pose proof (randint_range 0 9 raw). lia.
  - intros self raw draws Hshort. split; [reflexivity |]. split.
    + apply crossover_lookup_fails. change (randint 0 9 9) with 9. lia.
    + apply crossover_lookup_fails.
  - intros. apply selectionLoop_miss; assumption.
  - eexists. split; [vm_compute; reflexivity |]. split; [reflexivity |].
    intros draws. apply crossover_lookup_fails. cbn. lia.
Qed.

Lemma crossover_needs_ten_parents_witness :
  length (selectedGenes (init runSample)) < 10 /\
  crossover (init runSample) [9; 0; 0] = Raised IndexError.
Proof.
  assert (Hshort : length (selectedGenes (init runSample)) < 10) by (cbn; lia).
  split; [exact Hshort |].
  exact (proj1 (proj2 (proj1 (proj2 crossover_needs_ten_parents)
                         (init runSample) 0 [0; 0] Hshort))).
Defined.

(** ** partition *)

Lemma partitionGene_routed (instance : list Z) (gene : Gene) :
  forall (done : list Z) (subsetOne subsetTwo : list Z),
  length gene = length instance ->
  Forall isBit gene ->
  partitionGene (done ++ instance) (length done) gene subsetOne subsetTwo
  = Done (subsetOne ++ routed "0" gene instance,
          subsetTwo ++ routed "1" gene instance).
Proof.
  revert instance.
  induction gene as [| chromosome gene IH]; intros instance done s1 s2 Hlen Hbits.
  - destruct instance; [| discriminate]. cbn. by rewrite !app_nil_r.
  - destruct instance as [| v instance]; [discriminate |].
    apply Forall_cons in Hbits as [Hbit Hbits].
    injection Hlen as Hlen.
    cbn [partitionGene routed].
    assert (Hv : (done ++ v :: instance) !! length done = Some v)
      by (by rewrite list_lookup_middle).
    rewrite Hv. cbn [fromOption obind].
    replace (done ++ v :: instance) with ((done ++ [v]) ++ instance)
      by (by rewrite <- app_assoc).
    replace (S (length done)) with (length (done ++ [v]))
      by (rewrite length_app; cbn; lia).
    destruct Hbit as [-> | ->]; cbn [Ascii.eqb Bool.eqb obind andb];
      rewrite IH by assumption; by rewrite <- app_assoc.
Qed.

Lemma routed_length (gene : Gene) (instance : list Z) :
  length gene = length instance ->
  Forall isBit gene ->
  length (routed "0" gene instance) + length (routed "1" gene instance)
  = length instance.
Proof.
  revert instance. induction gene as [| c gene IH]; intros [| v instance] Hlen Hbits;
    try discriminate; [reflexivity |].
  apply Forall_cons in Hbits as [[-> | ->] Hbits]; injection Hlen as Hlen;
    cbn; rewrite <- (IH instance Hlen Hbits); lia.
Qed.

Lemma routed_Permutation (gene : Gene) (instance : list Z) :
  length gene = length instance ->
  Forall isBit gene ->
  routed "0" gene instance ++ routed "1" gene instance ≡ₚ instance.
Proof.
  revert instance. induction gene as [| c gene IH]; intros [| v instance] Hlen Hbits;
    try discriminate; [reflexivity |].
  apply Forall_cons in Hbits as [[-> | ->] Hbits]; injection Hlen as Hlen; cbn.
  - by rewrite (IH instance Hlen Hbits).
  - rewrite <- Permutation_middle. by rewrite (IH instance Hlen Hbits).
Qed.

Lemma partitionLoop_routed (genes : list Gene) :
  forall self : Genetic,
  Forall (fun gene => length gene = length (self_list self) /\ Forall isBit gene) genes ->
  exists self',
    partitionLoop genes self = Done self' /\
    numericalPopulation self'
    = numericalPopulation self ++ map (phenotype (self_list self)) genes.
Proof.
  induction genes as [| gene genes IH]; intros self Hall.
  - exists self. cbn. by rewrite app_nil_r.
  - apply Forall_cons in Hall as [[Hlen Hbits] Hall]. cbn [partitionLoop].
    pose proof (partitionGene_routed (self_list self) gene [] [] [] Hlen Hbits) as Hrun.
    cbn [app length] in Hrun. rewrite Hrun. cbn [obind].
    destruct (IH (set_numericalPopulation
                    (numericalPopulation self ++ [phenotype (self_list self) gene]) self))
      as (self' & Hloop & Hnum); [exact Hall |].
    exists self'. split; [exact Hloop |]. rewrite Hnum. cbn.
    by rewrite <- app_assoc.
Qed.

(** C8.  For a bit string as long as the instance, [partition] puts
    instance[i] in the first subset when bit i is 0 and in the second when it
    is 1, in index order; the two sizes add up to the length and the two
    subsets together are a rearrangement of the instance.  For the instance
    [5, 3, 8, 1] and the genotype 0011 the subsets are [5, 3] and [8, 1] and
    the difference is 1. *)
Theorem partition_routes (instance : list Z) (gene : Gene) :
  length gene = length instance ->
  Forall isBit gene ->
  (exists subsetZero subsetOne,
     partitionGene instance 0 gene [] [] = Done (subsetZero, subsetOne) /\
     subsetZero = routed "0" gene instance /\
     subsetOne = routed "1" gene instance /\
     length subsetZero + length subsetOne = length instance /\
     subsetZero ++ subsetOne ≡ₚ instance /\
     forall self,
       self_list self = instance ->
       Forall (fun g => length g = length instance /\ Forall isBit g)
              (population self) ->
       exists self',
         partition self = Done self' /\
         forall i,
           population self !! i = Some gene ->
           numericalPopulation self' !! (length (numericalPopulation self) + i)
           = Some (subsetZero, subsetOne)) /\
  partitionGene [5; 3; 8; 1]%Z 0 ["0"; "0"; "1"; "1"] [] []
  = Done ([5; 3]%Z, [8; 1]%Z) /\
  difference ([5; 3]%Z, [8; 1]%Z) = 1%Z.
Proof.
  intros Hlen Hbits. split; [| split; reflexivity].
  pose proof (partitionGene_routed instance gene [] [] [] Hlen Hbits) as Hrun.
  cbn [app length] in Hrun.
  exists (routed "0" gene instance), (routed "1" gene instance).
  split; [exact Hrun |]. split; [reflexivity |]. split; [reflexivity |].
  split; [by apply routed_length |]. split; [by apply routed_Permutation |].
  intros self Hlist Hpop. unfold partition.
  destruct (partitionLoop_routed (population self) self) as (self' & Hloop & Hnum);
    [by rewrite Hlist |].
  exists self'. split; [exact Hloop |]. intros i Hi.
  rewrite Hnum, lookup_app_r by lia.
  replace (length (numericalPopulation self) + i - length (numericalPopulation self))
    with i by lia.
  change (map ?f ?l) with (f <$> l). by rewrite list_lookup_fmap, Hi, Hlist.
Qed.

Lemma partition_routes_witness :
  length ["0"; "1"; "1"; "0"] = length [7; 2; 9; 4]%Z /\
  Forall isBit ["0"; "1"; "1"; "0"] /\
  exists subsetZero subsetOne,
    partitionGene [7; 2; 9; 4]%Z 0 ["0"; "1"; "1"; "0"] [] []
    = Done (subsetZero, subsetOne) /\
    subsetZero = [7; 4]%Z /\ subsetOne = [2; 9]%Z.
Proof.
  assert (Hbits : Forall isBit ["0"; "1"; "1"; "0"])
    by (repeat constructor; first [by left | by right]).
  split; [reflexivity |]. split; [exact Hbits |].
  destruct (proj1 (partition_routes [7; 2; 9; 4]%Z ["0"; "1"; "1"; "0"] eq_refl Hbits))
    as (subsetZero & subsetOne & Hrun & Hzero & Hone & _).
  exists subsetZero, subsetOne. split; [exact Hrun |]. split; assumption.
Defined.

(** ** mutation *)

Lemma mutationLoop_scan (rate : Q) (gene : Gene) :
  forall (acc : Gene) (ones zeroes : nat) (draws : list Q),
  Forall isBit gene ->
  length gene <= length draws ->
  exists scanned,
    mutationLoop rate gene acc ones zeroes draws
    = Done (acc ++ scanned, ones + flips "1" "0" gene scanned,
            zeroes + flips "0" "1" gene scanned, drop (length gene) draws) /\
    length scanned = length gene /\
    count "0" scanned + flips "0" "1" gene scanned
    = count "0" gene + flips "1" "0" gene scanned /\
    count "1" scanned + flips "1" "0" gene scanned
    = count "1" gene + flips "0" "1" gene scanned.
Proof.
  induction gene as [| chromosome gene IH]; intros acc ones zeroes draws Hbits Hlen.
  - exists []. cbn. rewrite app_nil_r, !Nat.add_0_r. repeat split.
  - apply Forall_cons in Hbits as [Hbit Hbits].
    destruct draws as [| u draws]; cbn [length] in Hlen; [lia |].
    cbn [mutationLoop drop length].
    destruct (Qlt_bool u rate).
    + destruct Hbit as [-> | ->];
        [change (flipped "0") with (Done (A := ascii) "1")
        | change (flipped "1") with (Done (A := ascii) "0")];
        cbn [obind Ascii.eqb Bool.eqb andb].
      * destruct (IH (acc ++ ["1"]) ones (zeroes + 1) draws Hbits ltac:(lia))
          as (scanned & Hrun & Hsize & Hzero & Hone).
        exists ("1" :: scanned). rewrite Hrun. cbn. rewrite <- app_assoc. cbn.
        replace (zeroes + 1 + flips "0" "1" gene scanned)
          with (zeroes + S (flips "0" "1" gene scanned)) by lia.
        split; [reflexivity |]. split; lia.
      * destruct (IH (acc ++ ["0"]) (ones + 1) zeroes draws Hbits ltac:(lia))
          as (scanned & Hrun & Hsize & Hzero & Hone).
        exists ("0" :: scanned). rewrite Hrun. cbn. rewrite <- app_assoc. cbn.
        replace (ones + 1 + flips "1" "0" gene scanned)
          with (ones + S (flips "1" "0" gene scanned)) by lia.
        split; [reflexivity |]. split; lia.
    + destruct (IH (acc ++ [chromosome]) ones zeroes draws Hbits ltac:(lia))
        as (scanned & Hrun & Hsize & Hzero & Hone).
      exists (chromosome :: scanned). rewrite Hrun. rewrite <- app_assoc.
      destruct Hbit as [-> | ->]; cbn; (split; [reflexivity |]); split; lia.
Qed.

(** C7.  For a bit string and a tape with a draw per bit, [mutation] scans
    the gene into a gene of the same length, counting the zero-to-one and the
    one-to-zero flips; it returns the scanned gene when the two counts agree
    and the input, with every flip dropped, when they differ.  Either way the
    result has the length, the zero-count and the one-count of the input, and
    its zero-to-one flips are as many as its one-to-zero flips. *)
Theorem mutation_all_or_nothing (self : Genetic) (gene : Gene) (draws : list Q) :
  Forall isBit gene ->
  length gene <= length draws ->
  exists scanned mutatedOnes mutatedZeroes result,
    mutationLoop (mutationRate self) gene [] 0 0 draws
    = Done (scanned, mutatedOnes, mutatedZeroes, drop (length gene) draws) /\
    mutatedZeroes = flips "0" "1" gene scanned /\
    mutatedOnes = flips "1" "0" gene scanned /\
    mutation self gene draws = Done (result, drop (length gene) draws) /\
    (mutatedOnes = mutatedZeroes -> result = scanned) /\
    (mutatedOnes <> mutatedZeroes -> result = gene) /\
    (result = gene \/
     flips "0" "1" gene result = flips "1" "0" gene result) /\
    length result = length gene /\
    count "0" result = count "0" gene /\
    count "1" result = count "1" gene.
Proof.
  intros Hbits Hlen.
  destruct (mutationLoop_scan (mutationRate self) gene [] 0 0 draws Hbits Hlen)
    as (scanned & Hrun & Hsize & Hzero & Hone).
  cbn [app Nat.add] in Hrun.
  exists scanned, (flips "1" "0" gene scanned), (flips "0" "1" gene scanned).
  unfold mutation. rewrite Hrun. cbn [obind].
  destruct (Nat.eqb_spec (flips "1" "0" gene scanned) (flips "0" "1" gene scanned))
    as [Heq | Hne].
  - exists scanned. repeat split; try done; lia.
  - exists gene. repeat split; try done. by left.
Qed.

Lemma mutation_all_or_nothing_witness :
  exists result,
    mutation (init runSample) ["0"; "1"; "1"] [0%Q; 0%Q; 50%Q] = Done (result, []) /\
    length result = 3 /\ count "0" result = 1 /\ count "1" result = 2.
Proof.
  destruct (mutation_all_or_nothing (init runSample) ["0"; "1"; "1"] [0%Q; 0%Q; 50%Q])
    as (scanned & ones & zeroes & result & _ & _ & _ & Hrun & _ & _ & _ & Hsize & Hzero & Hone).
  - repeat constructor; first [by left | by right].
  - cbn. lia.
  - exists result. split; [exact Hrun |].
    split; [exact Hsize |]. split; [exact Hzero | exact Hone].
Defined.

(** ** selection *)

(** The lemmas on one draw and on the loop hold for any list of
    thresholds. *)
Section Roulette.

Variable thresholds : list Q.

Lemma pick_picked (u : Q) (population : list Gene) :
  forall before : list Gene,
  length before + length population <= length thresholds ->
  (forall m t, m < length before -> thresholds !! m = Some t -> ~ (u <= t)%Q) ->
  exists hit,
    pick thresholds u (length before) population = Done hit /\
    picked thresholds (before ++ population) u hit.
Proof.
  induction population as [| individual population IH]; intros before Hlen Hlow.
  - exists None. split; [reflexivity |]. apply picked_miss.
    intros n t Hn. rewrite app_nil_r in Hn. by apply Hlow.
  - cbn [length] in Hlen. cbn [pick].
    destruct (lookup_lt_is_Some_2 thresholds (length before)) as [t Ht]; [lia |].
    rewrite Ht. cbn [fromOption obind].
    destruct (Qle_bool u t) eqn:Hle.
    + exists (Some individual). split; [reflexivity |].
      apply Qle_bool_iff in Hle.
      apply (picked_hit _ _ _ (length before) individual t);
        [by rewrite list_lookup_middle | exact Ht | exact Hle | exact Hlow].
    + destruct (IH (before ++ [individual])) as (hit & Hrun & Hpicked).
      * rewrite length_app. cbn. lia.
      * intros m t' Hm Hm'. rewrite length_app in Hm. cbn in Hm.
        destruct (decide (m = length before)) as [-> | Hne].
        -- rewrite Ht in Hm'. injection Hm' as <-.
           intros Habs. apply Qle_bool_iff in Habs. congruence.
        -- apply (Hlow m t'); [lia | exact Hm'].
      * exists hit. rewrite length_app in Hrun. cbn in Hrun.
        rewrite Nat.add_1_r in Hrun. split; [exact Hrun |].
        by rewrite <- app_assoc in Hpicked.
Qed.

Lemma kept_length (hits : list (option Gene)) : length (kept hits) <= length hits.
Proof.
  induction hits as [| [individual |] hits IH]; cbn; [lia | |]; fold (kept hits); cbn; lia.
Qed.

Lemma kept_all (hits : list (option Gene)) :
  Forall is_Some hits -> length (kept hits) = length hits.
Proof.
  induction 1 as [| hit hits [individual ->] _ IH]; [reflexivity |].
  cbn. fold (kept hits). cbn. by rewrite IH.
Qed.

Lemma selectionLoop_picked (population : list Gene) :
  forall (count : nat) (newPopulation : list Gene) (draws : list Q),
  length population <= length thresholds ->
  count <= length draws ->
  exists hits,
    selectionLoop count thresholds population newPopulation draws
    = Done (newPopulation ++ kept hits, drop count draws) /\
    Forall2 (picked thresholds population) (take count draws) hits.
Proof.
  intros count. induction count as [| count IH]; intros newPopulation draws Hlen Hdraws.
  - exists []. cbn. rewrite app_nil_r, drop_0. split; [reflexivity | constructor].
  - destruct draws as [| u draws]; cbn [length] in Hdraws; [lia |].
    cbn [selectionLoop].
    destruct (pick_picked u population []) as (hit & Hrun & Hpicked);
      [cbn; lia | intros m t Hm; cbn in Hm; lia |].
    cbn [length app] in Hrun, Hpicked. rewrite Hrun. cbn [obind].
    destruct (IH (match hit with
                  | Some individual => newPopulation ++ [individual]
                  | None => newPopulation
                  end) draws Hlen ltac:(lia)) as (hits & Hloop & Hall).
    exists (hit :: hits). rewrite Hloop. split.
    + destruct hit as [individual |]; cbn; fold (kept hits);
        [by rewrite <- app_assoc | reflexivity].
    + cbn. by constructor.
Qed.

Lemma probabilities_length (weighted : list Q) :
  length (probabilities weighted) = length weighted.
Proof. unfold probabilities. by rewrite length_map, length_seq. Qed.

Lemma picked_covered (population : list Gene)
    (us : list Q) (hits : list (option Gene)) :
  Forall2 (picked thresholds population) us hits ->
  Forall (fun u => exists n t, n < length population /\
                               thresholds !! n = Some t /\ (u <= t)%Q) us ->
  Forall is_Some hits.
Proof.
  induction 1 as [| u hit us hits Hpicked _ IH]; intros Hcovered; [constructor |].
  apply Forall_cons in Hcovered as [(n & t & Hn & Ht & Hle) Hcovered].
  constructor; [| by apply IH].
  destruct Hpicked as [m individual t' _ _ _ _ | Hmiss]; [by eexists |].
  exfalso. by apply (Hmiss n t).
Qed.

End Roulette.

(** With the table of [__init__] and a population of 20, draws of at most
    100 select [count] genes. *)
Lemma selection_full_population (count : nat) (population : list Gene)
    (self : Genetic) (draws : list Q) :
  frequency self = frequencyTable ->
  length population = 20 ->
  count <= length draws ->
  Forall (fun u => (u <= 100)%Q) (take count draws) ->
  exists self',
    selection count population self draws = Done (self', drop count draws) /\
    length (selectedGenes self') = count.
Proof.
  intros Htable Hlen Hdraws Hrange. unfold selection. rewrite Htable.
  destruct table_thresholds as (weighted & -> & Hsize & _ & last & Hlast & Hfull).
  cbn [obind].
  destruct (selectionLoop_picked (probabilities weighted) population count [] draws)
    as (hits & -> & Hall); [lia | exact Hdraws |].
  cbn [obind app]. eexists. split; [reflexivity |]. cbn [selectedGenes set_selectedGenes].
  assert (Hhits : length hits = count).
  { apply Forall2_length in Hall. rewrite length_take in Hall. lia. }
  rewrite <- Hhits. eapply kept_all, picked_covered; [exact Hall |].
  eapply Forall_impl; [exact Hrange |]. intros u Hu. cbn beta in Hu.
  exists 19, last. split; [lia |]. split; [exact Hlast |].
  eapply Qle_trans; [exact Hu | exact Hfull].
Qed.

(** C4 (as the claim states it, refuted).  With the table of [__init__], a
    population of two and the draws 50, 1/2 and 0, [selection(3, population)]
    keeps two genes: the draw 50 is above both thresholds (0 and 0.53). *)
Lemma selection_keeps_fewer_than_count :
  exists self,
    selection 3 [onesThenZeroes; zeroesThenOnes] (init runSample)
      [50%Q; (1 # 2)%Q; 0%Q]
    = Done (self, []) /\
    selectedGenes self = [zeroesThenOnes; onesThenZeroes] /\
    length (selectedGenes self) <> 3.
Proof.
  eexists. split; [vm_compute; reflexivity |]. split; [reflexivity |]. cbn. lia.
Qed.

Lemma totalFitness_keys (f1 f2 : list (Z * list Z)) :
  map fst f1 = map fst f2 -> totalFitness f1 = totalFitness f2.
Proof.
  unfold totalFitness. generalize 0%Z. revert f2.
  induction f1 as [| [k1 b1] f1 IH]; intros [| [k2 b2] f2] total Hkeys;
    try discriminate; [reflexivity |].
  cbn in Hkeys. injection Hkeys as -> Hkeys. cbn. by apply IH.
Qed.

Lemma weights_keys (f1 f2 : list (Z * list Z)) (total : Z) :
  map fst f1 = map fst f2 -> weights f1 total = weights f2 total.
Proof.
  revert f2. induction f1 as [| [k1 b1] f1 IH]; intros [| [k2 b2] f2] Hkeys;
    try discriminate; [reflexivity |].
  cbn in Hkeys. injection Hkeys as -> Hkeys. cbn [weights fst].
  by rewrite (IH f2 Hkeys).
Qed.

Lemma weightedFitness_keys (f1 f2 : list (Z * list Z)) :
  map fst f1 = map fst f2 -> weightedFitness f1 = weightedFitness f2.
Proof.
  intros Hkeys. unfold weightedFitness.
  by rewrite (totalFitness_keys f1 f2 Hkeys), (weights_keys f1 f2 _ Hkeys).
Qed.

(** C4 (amended).  With the bucket keys 0..19, the thresholds are the
    floats [round(sum(weights[:i + 1]) * 100, 2)] of the code: they are the
    floats nearest to 0, 0.53, 1.58, ..., 90, 100, the exact cumulative
    percentages of the weights 0..19 rounded to hundredths.  When the
    population has at most 20 members and the tape holds [count] draws,
    [selection(count, population)] returns; each of the [count] draws [u]
    yields the first member of the population whose threshold is at least
    [u], or nothing when there is none; SelectedGenes is the sequence of the
    members so yielded, at most [count] of them, exactly [count] when every
    draw is at most the threshold of some member, and so always for a
    population of 20 and draws of at most 100. *)
Theorem selection_roulette (count : nat) (population : list Gene)
    (self : Genetic) (draws : list Q) :
  map fst (frequency self) = map fst frequencyTable ->
  length population <= 20 ->
  count <= length draws ->
  tableThresholds = map (fun k => fl (k # 100)) tableHundredths /\
  tableHundredths = map (fun i => hundredths (cumulativePercent i)) (seq 0 20) /\
  exists hits,
    selection count population self draws
    = Done (set_selectedGenes (kept hits) self, drop count draws) /\
    length hits = count /\
    Forall2 (picked tableThresholds population) (take count draws) hits /\
    length (kept hits) <= count /\
    (Forall (fun u => exists n t, n < length population /\
                                  tableThresholds !! n = Some t /\ (u <= t)%Q)
            (take count draws) ->
     length (kept hits) = count) /\
    (length population = 20 ->
     Forall (fun u => (u <= 100)%Q) (take count draws) ->
     length (kept hits) = count).
Proof.
  intros Hkeys Hlen Hdraws.
  split; [apply tableThresholds_values |]. split; [vm_compute; reflexivity |].
  assert (Hsize20 : length tableThresholds = 20) by (vm_compute; reflexivity).
  destruct (selectionLoop_picked tableThresholds population count [] draws)
    as (hits & Hloop & Hall); [lia | exact Hdraws |].
  assert (Hsize : length hits = count).
  { apply Forall2_length in Hall. rewrite length_take in Hall. lia. }
  exists hits. unfold selection.
  rewrite (weightedFitness_keys _ _ Hkeys), tableWeights_Done. cbn [obind].
  fold tableThresholds. rewrite Hloop. cbn [obind app].
  split; [reflexivity |]. split; [exact Hsize |]. split; [exact Hall |].
  split; [rewrite <- Hsize; apply kept_length |].
  assert (Hcover : Forall (fun u => exists n t, n < length population /\
                            tableThresholds !! n = Some t /\ (u <= t)%Q)
                          (take count draws) ->
                   length (kept hits) = count).
  { intros Hcovered. rewrite <- Hsize. by eapply kept_all, picked_covered. }
  split; [exact Hcover |].
  intros Htwenty Hrange. apply Hcover.
  eapply Forall_impl; [exact Hrange |]. intros u Hu. cbn beta in Hu.
  exists 19, 100%Q. split; [lia |]. split; [vm_compute; reflexivity | exact Hu].
Qed.

Lemma selection_roulette_witness :
  exists hits,
    selection 2 (replicate 20 zeroesThenOnes) (init runSample) [100%Q; 0%Q]
    = Done (set_selectedGenes (kept hits) (init runSample), []) /\
    length (kept hits) = 2.
Proof.
  destruct (selection_roulette 2 (replicate 20 zeroesThenOnes) (init runSample)
              [100%Q; 0%Q])
    as (_ & _ & hits & Hrun & _ & _ & _ & _ & Hfull).
  - reflexivity.
  - cbn. lia.
  - cbn. lia.
  - exists hits. split; [exact Hrun |]. apply Hfull; [reflexivity |].
    repeat constructor; apply Qle_bool_iff; reflexivity.
Defined.

(** ** fitnessAssessment *)

Lemma index_first (x : Z) (l : list Z) :
  forall i, l !! i = Some x ->
  exists first, index x l = Some first /\ first <= i /\ l !! first = Some x.
Proof.
  induction l as [| y l IH]; intros i Hi; [by rewrite lookup_nil in Hi |].
  cbn [index]. destruct (Z.eqb_spec y x) as [-> | Hne].
  - exists 0. split; [reflexivity |]. split; [lia | reflexivity].
  - destruct i as [| i]; [cbn in Hi; congruence |].
    destruct (IH i Hi) as (first & Hfirst & Hle & Hat).
    exists (S first). rewrite Hfirst. split; [reflexivity |]. split; [lia | exact Hat].
Qed.

Lemma index_NoDup (x : Z) (l : list Z) (i : nat) :
  NoDup l -> l !! i = Some x -> index x l = Some i.
Proof.
  intros Hnodup Hi. destruct (index_first x l i Hi) as (first & Hfirst & _ & Hat).
  rewrite Hfirst. f_equal. by eapply NoDup_lookup.
Qed.

Lemma appenditem_Some (k v : Z) (d : list (Z * list Z)) :
  is_Some (getitem k d) ->
  exists d', appenditem k v d = Some d' /\
             forall k', is_Some (getitem k' d') <-> is_Some (getitem k' d).
Proof.
  induction d as [| [k0 bucket] d IH]; intros Hkey; cbn in Hkey.
  - by destruct Hkey.
  - cbn [appenditem]. destruct (Z.eqb_spec k0 k) as [-> | Hne].
    + eexists. split; [reflexivity |]. intros k'. cbn.
      destruct (k =? k')%Z; [split; intros _; by eexists | reflexivity].
    + destruct (IH Hkey) as (d' & Hrun & Hkeys). rewrite Hrun.
      eexists. split; [reflexivity |]. intros k'. cbn.
      destruct (k0 =? k')%Z; [split; intros _; by eexists | apply Hkeys].
Qed.

Lemma fitnessLoop_run (sortedDifferences : list Z) :
  forall (todo : list Z) (self : Genetic),
  (forall d, d ∈ todo -> d ∈ sortedDifferences) ->
  (forall k, (0 <= k < Z.of_nat (length sortedDifferences))%Z ->
             is_Some (getitem k (frequency self))) ->
  exists self',
    fitnessLoop todo sortedDifferences self = Done self' /\
    populationFitness self'
    = populationFitness self ++ map (firstRank sortedDifferences) todo.
Proof.
  induction todo as [| d todo IH]; intros self Hin Hkeys.
  - exists self. cbn. by rewrite app_nil_r.
  - cbn [fitnessLoop].
    assert (Hd : d ∈ sortedDifferences) by (apply Hin; left).
    apply list_elem_of_lookup in Hd as [i Hi].
    destruct (index_first d _ i Hi) as (first & Hfirst & Hle & _).
    apply lookup_lt_Some in Hi.
    rewrite Hfirst. cbn [fromOption obind frequency set_populationFitness].
    destruct (appenditem_Some
                (Z.of_nat (length sortedDifferences) - 1 - Z.of_nat first)%Z d
                (frequency self)) as (table & Htable & Hsame);
      [apply Hkeys; lia |].
    rewrite Htable. cbn [fromOption obind].
    destruct (IH (set_frequency table
                    (set_populationFitness
                       (populationFitness self ++
                        [(Z.of_nat (length sortedDifferences) - 1 - Z.of_nat first)%Z])
                       self))) as (self' & Hrun & Hfit).
    + intros d' Hd'. apply Hin. by right.
    + intros k Hk. cbn. apply Hsame, Hkeys, Hk.
    + exists self'. split; [exact Hrun |]. rewrite Hfit. cbn.
      rewrite <- app_assoc. cbn. unfold firstRank at 2. by rewrite Hfirst.
Qed.

Lemma ranks_NoDup (n : nat) : NoDup (ranks n).
Proof.
  unfold ranks. apply (NoDup_fmap_2 Z.of_nat), NoDup_seq.
Qed.

Lemma firstRank_NoDup (l : list Z) :
  NoDup l -> map (firstRank l) l ≡ₚ ranks (length l).
Proof.
  intros Hnodup. apply NoDup_Permutation.
  - apply NoDup_alt. intros i j r Hi Hj.
    rewrite list_lookup_fmap in Hi, Hj.
    destruct (l !! i) as [x |] eqn:Hx; [| discriminate].
    destruct (l !! j) as [y |] eqn:Hy; [| discriminate].
    cbn in Hi, Hj. unfold firstRank in Hi, Hj.
    rewrite (index_NoDup x l i Hnodup Hx) in Hi.
    rewrite (index_NoDup y l j Hnodup Hy) in Hj. cbn in Hi, Hj.
    injection Hi as Hi. injection Hj as Hj. lia.
  - apply ranks_NoDup.
  - intros r. unfold ranks. rewrite !list_elem_of_fmap. split.
    + intros (x & -> & Hx). apply list_elem_of_lookup in Hx as [i Hi].
      unfold firstRank. rewrite (index_NoDup x l i Hnodup Hi). cbn.
      apply lookup_lt_Some in Hi.
      exists (length l - 1 - i). split; [lia |]. apply elem_of_seq. lia.
    + intros (i & -> & Hi). apply elem_of_seq in Hi.
      destruct (lookup_lt_is_Some_2 l (length l - 1 - i)) as [x Hx]; [lia |].
      exists x. split; [| by eapply list_elem_of_lookup_2].
      unfold firstRank. rewrite (index_NoDup x l _ Hnodup Hx). cbn. lia.
Qed.

(** C1 (as the claim states it, refuted).  For four individuals with the
    differences 0, 5, 2, 2 the fitness values are 3, 2, 2, 0: the two
    individuals of difference 2 share the value 2, no individual has the
    value 1, and the values are not a rearrangement of 0..3. *)
Lemma fitnessAssessment_ties_share_rank :
  differences tiedPopulation = [0; 5; 2; 2]%Z /\
  exists self,
    fitnessAssessment tiedPopulation (init []) = Done self /\
    populationFitness self = [3; 2; 2; 0]%Z /\
    ~ (populationFitness self ≡ₚ ranks 4).
Proof.
  split; [reflexivity |]. eexists. split; [vm_compute; reflexivity |].
  split; [reflexivity |]. cbn [populationFitness]. intros Hperm.
  apply Permutation_sym in Hperm.
  apply (Permutation_in 1%Z) in Hperm; [| cbn; tauto].
  cbn in Hperm. intuition discriminate.
Qed.

(** C1 (amended).  For a population of [n] individuals and a table holding
    the keys 0..n-1, [fitnessAssessment] returns and appends [n] fitness
    values, one per member of the ascending sequence of differences: the
    value of a member is n - 1 - (position of the first occurrence of its
    difference), a function of the difference, so members with one
    difference receive one value.  The values are a rearrangement of 0..n-1
    exactly when the differences are pairwise distinct. *)
Theorem fitnessAssessment_ranks (population : list (list Z * list Z))
    (self : Genetic) :
  (forall k, (0 <= k < Z.of_nat (length population))%Z ->
             is_Some (getitem k (frequency self))) ->
  let n := length population in
  let sortedDifferences := sorted (differences population) in
  Sorted Z.le sortedDifferences /\
  sortedDifferences ≡ₚ differences population /\
  exists self' fitnesses,
    fitnessAssessment population self = Done self' /\
    populationFitness self' = populationFitness self ++ fitnesses /\
    length fitnesses = n /\
    (forall i d, sortedDifferences !! i = Some d ->
       exists first,
         index d sortedDifferences = Some first /\ first <= i /\
         fitnesses !! i = Some (Z.of_nat n - 1 - Z.of_nat first)%Z) /\
    (forall i j d, sortedDifferences !! i = Some d ->
                   sortedDifferences !! j = Some d ->
                   fitnesses !! i = fitnesses !! j) /\
    (fitnesses ≡ₚ ranks n <-> NoDup (differences population)).
Proof.
  intros Hkeys n sortedDifferences.
  assert (Hperm : sortedDifferences ≡ₚ differences population)
    by apply merge_sort_Permutation.
  assert (Hsize : length sortedDifferences = n).
  { rewrite Hperm. unfold differences. by rewrite length_map. }
  split; [apply (Sorted_merge_sort Z.le) |]. split; [exact Hperm |].
  destruct (fitnessLoop_run sortedDifferences sortedDifferences self)
    as (self' & Hrun & Hfit); [done | by rewrite Hsize |].
  exists self', (map (firstRank sortedDifferences) sortedDifferences).
  split; [exact Hrun |]. split; [exact Hfit |].
  split; [by rewrite length_map |].
  assert (Hat : forall i d, sortedDifferences !! i = Some d ->
            map (firstRank sortedDifferences) sortedDifferences !! i
            = Some (firstRank sortedDifferences d)).
  { intros i d Hi. change (map ?f ?l) with (f <$> l).
    by rewrite list_lookup_fmap, Hi. }
  split; [| split].
  - intros i d Hi. destruct (index_first d _ i Hi) as (first & Hfirst & Hle & _).
    exists first. split; [exact Hfirst |]. split; [exact Hle |].
    rewrite (Hat i d Hi). unfold firstRank. by rewrite Hfirst, Hsize.
  - intros i j d Hi Hj. by rewrite (Hat i d Hi), (Hat j d Hj).
  - rewrite <- Hperm, <- Hsize. split.
    + intros Hranks. apply (NoDup_fmap_1 (firstRank sortedDifferences)).
      change (NoDup (map (firstRank sortedDifferences) sortedDifferences)).
      rewrite Hranks. apply ranks_NoDup.
    + apply firstRank_NoDup.
Qed.

Lemma fitnessAssessment_ranks_witness :
  exists self' fitnesses,
    fitnessAssessment [([5; 3], [8; 1]); ([5; 8], [3; 1])]%Z (init [5; 3; 8; 1]%Z)
    = Done self' /\
    populationFitness self' = fitnesses /\
    fitnesses ≡ₚ ranks 2.
Proof.
  destruct (fitnessAssessment_ranks [([5; 3], [8; 1]); ([5; 8], [3; 1])]%Z
              (init [5; 3; 8; 1]%Z))
    as (_ & _ & self' & fitnesses & Hrun & Hfit & _ & _ & _ & Hranks).
  - intros k Hk. cbn in Hk.
    assert (Hcases : k = 0%Z \/ k = 1%Z) by lia.
    destruct Hcases as [-> | ->]; by eexists.
  - exists self', fitnesses. split; [exact Hrun |]. split; [exact Hfit |].
    apply Hranks. cbn. apply NoDup_cons. split; [| apply NoDup_singleton].
    intros Hin. apply list_elem_of_singleton in Hin. discriminate.
Defined.

(** * Further properties of the methods *)

(** ** Bit strings and the verdict of validateGene *)

Lemma count_app (c : ascii) (a b : Gene) :
  count c (a ++ b) = count c a + count c b.
Proof. induction a as [| x a IH]; cbn; [reflexivity | rewrite IH; lia]. Qed.

Lemma count_take_drop (c : ascii) (n : nat) (g : Gene) :
  count c (take n g) + count c (drop n g) = count c g.
Proof. by rewrite <- count_app, take_drop. Qed.

Lemma count_bits (g : Gene) :
  Forall isBit g -> count "0" g + count "1" g = length g.
Proof.
  induction 1 as [| x g [-> | ->] _ IH]; cbn; lia.
Qed.

Lemma count_no_zero (g : Gene) :
  Forall isBit g -> count "0" g = 0 -> g = times "1" (length g).
Proof.
  induction 1 as [| x g [-> | ->] _ IH]; cbn; intros Hzero;
    [reflexivity | discriminate |].
  unfold times in *. cbn. f_equal. apply IH, Hzero.
Qed.

Lemma validateGene_counts (g h : Gene) :
  count "0" g = count "0" h -> count "1" g = count "1" h ->
  validateGene g = validateGene h.
Proof. unfold validateGene. by intros -> ->. Qed.

Lemma bits_onesThenZeroes : Forall isBit onesThenZeroes.
Proof.
  apply Forall_app_2; apply Forall_replicate; [by right | by left].
Qed.

Lemma bits_zeroesThenOnes : Forall isBit zeroesThenOnes.
Proof.
  apply Forall_app_2; apply Forall_replicate; [by left | by right].
Qed.

Lemma accepted_genotype (gene : Gene) :
  length gene = 100 ->
  Forall isBit gene ->
  validateGene gene = true ->
  balanced gene \/ gene = times "1" 100.
Proof.
  intros Hlen Hbits Hvalid. apply validateGene_true in Hvalid.
  pose proof (count_bits gene Hbits) as Hsum.
  destruct Hvalid as [Hzero | Hone].
  - right. rewrite <- Hlen. by apply count_no_zero.
  - left. unfold balanced. lia.
Qed.

(** X1.  On a bit string of length 100, [validateGene] answers True exactly
    for the balanced strings and for the string of 100 ones. *)
Theorem validateGene_on_genotypes (gene : Gene) :
  length gene = 100 ->
  Forall isBit gene ->
  (validateGene gene = true <-> balanced gene \/ gene = times "1" 100).
Proof.
  intros Hlen Hbits. split; [by apply accepted_genotype |].
  rewrite validateGene_true.
  intros [(_ & _ & Hone) | ->]; [by right | by left].
Qed.

Lemma validateGene_on_genotypes_witness :
  validateGene onesThenZeroes = true /\ validateGene (times "0" 100) <> true.
Proof.
  split.
  - apply (validateGene_on_genotypes onesThenZeroes eq_refl bits_onesThenZeroes).
    left. by repeat split.
  - intros Habs.
    apply (validateGene_on_genotypes (times "0" 100) eq_refl) in Habs.
    + destruct Habs as [(_ & _ & Hone) | Hones]; discriminate.
    + apply Forall_replicate. by left.
Defined.

(** ** The two children of one crossover point *)

Lemma count_children (c : ascii) (p : nat) (a b : Gene) :
  length a <= 100 -> length b <= 100 ->
  count c (child p a b) + count c (child p b a) = count c a + count c b.
Proof.
  intros Ha Hb. rewrite !child_concat, !count_app by assumption.
  pose proof (count_take_drop c (p + 1) a).
  pose proof (count_take_drop c (p + 1) b). lia.
Qed.

(** X2.  The two children cut from two balanced parents at one point share
    the parents' bits: together they hold 100 zero-bits and 100 one-bits, so
    one has 50 one-bits exactly when the other has, and [validateGene] gives
    both the same answer unless one of them has no zero-bit. *)
Theorem children_are_complementary (p : nat) (a b : Gene) :
  balanced a ->
  balanced b ->
  let childOne := child p a b in
  let childTwo := child p b a in
  count "0" childOne + count "0" childTwo = 100 /\
  count "1" childOne + count "1" childTwo = 100 /\
  (count "1" childOne = 50 <-> count "1" childTwo = 50) /\
  (count "0" childOne <> 0 -> count "0" childTwo <> 0 ->
   validateGene childOne = validateGene childTwo).
Proof.
  intros (Ha & Ha0 & Ha1) (Hb & Hb0 & Hb1) childOne childTwo.
  pose proof (count_children "0" p a b ltac:(lia) ltac:(lia)) as Hzero.
  pose proof (count_children "1" p a b ltac:(lia) ltac:(lia)) as Hone.
  fold childOne childTwo in Hzero, Hone.
  split; [lia |]. split; [lia |]. split; [lia |].
  intros Hz1 Hz2. apply Bool.eq_iff_eq_true. rewrite !validateGene_true. lia.
Qed.

Lemma children_are_complementary_witness :
  count "1" (child 10 onesThenZeroes zeroesThenOnes)
  + count "1" (child 10 zeroesThenOnes onesThenZeroes) = 100.
Proof.
  refine (proj1 (proj2 (children_are_complementary 10 onesThenZeroes zeroesThenOnes _ _)));
    by repeat split.
Defined.

(** ** crossover: outcomes *)

Lemma crossoverPair_children (parentOne parentTwo : Gene) :
  forall (draws : list nat) (generation generation' : list Gene) (rest : list nat),
  crossoverPair parentOne parentTwo false false generation draws
  = Done (generation', rest) ->
  exists added,
    generation' = generation ++ added /\
    Forall (fun gene => exists p, p <= 99 /\
              (gene = child p parentOne parentTwo \/ gene = child p parentTwo parentOne))
           added.
Proof.
  induction draws as [| raw draws IH]; intros generation generation' rest Hrun;
    [discriminate |].
  rewrite crossoverPair_pass in Hrun. cbv zeta in Hrun.
  assert (Hp : drawCrossoverPoint raw <= 99).
  { unfold drawCrossoverPoint. pose proof (randint_range 0 99 raw). lia. }
  assert (HOne : exists p, p <= 99 /\
            (child (drawCrossoverPoint raw) parentOne parentTwo = child p parentOne parentTwo \/
             child (drawCrossoverPoint raw) parentOne parentTwo = child p parentTwo parentOne))
    by (eexists; split; [exact Hp | by left]).
  assert (HTwo : exists p, p <= 99 /\
            (child (drawCrossoverPoint raw) parentTwo parentOne = child p parentOne parentTwo \/
             child (drawCrossoverPoint raw) parentTwo parentOne = child p parentTwo parentOne))
    by (eexists; split; [exact Hp | by right]).
  destruct (validateGene (child (drawCrossoverPoint raw) parentOne parentTwo));
    destruct (validateGene (child (drawCrossoverPoint raw) parentTwo parentOne)).
  - injection Hrun as <- <-. eexists. split; [reflexivity |].
    apply Forall_cons. split; [exact HOne |]. by apply Forall_singleton.
  - injection Hrun as <- <-. eexists. split; [reflexivity |]. by apply Forall_singleton.
  - injection Hrun as <- <-. eexists. split; [reflexivity |]. by apply Forall_singleton.
  - by apply IH in Hrun.
Qed.

Lemma crossoverPair_no_raise (parentOne parentTwo : Gene) (e : Exception) :
  forall (draws : list nat) (generation : list Gene),
  crossoverPair parentOne parentTwo false false generation draws <> Raised e.
Proof.
  induction draws as [| raw draws IH]; intros generation; [discriminate |].
  rewrite crossoverPair_pass. cbv zeta.
  destruct (validateGene _); destruct (validateGene _); try discriminate. apply IH.
Qed.

Lemma crossoverLoop_children (pool : list Gene) :
  forall (fuel : nat) (generation generation' : list Gene) (draws rest : list nat),
  crossoverLoop fuel pool generation draws = Done (generation', rest) ->
  exists added,
    generation' = generation ++ added /\ Forall (childOf pool) added.
Proof.
  induction fuel as [| fuel IH]; intros generation generation' draws rest Hrun;
    cbn [crossoverLoop] in Hrun; destruct (length generation <? 20);
    try discriminate;
    try (injection Hrun as <- <-; exists []; by rewrite app_nil_r).
  destruct draws as [| rawOne [| rawTwo draws]]; try discriminate.
  - destruct (pool !! randint 0 9 rawOne); discriminate.
  - destruct (pool !! randint 0 9 rawOne) as [parentOne |] eqn:HOne; [| discriminate].
    destruct (pool !! randint 0 9 rawTwo) as [parentTwo |] eqn:HTwo; [| discriminate].
    cbn [fromOption obind] in Hrun.
    destruct (crossoverPair parentOne parentTwo false false generation draws)
      as [[middle draws'] | |] eqn:Hpair; try discriminate.
    cbn [obind] in Hrun.
    apply crossoverPair_children in Hpair as (first & -> & Hfirst).
    destruct (IH _ _ _ _ Hrun) as (later & -> & Hlater).
    exists (first ++ later). rewrite app_assoc. split; [reflexivity |].
    apply Forall_app_2; [| exact Hlater].
    apply list_elem_of_lookup_2 in HOne, HTwo.
    eapply Forall_impl; [exact Hfirst |]. intros gene (p & Hp & [-> | ->]).
    + by exists parentOne, parentTwo, p.
    + by exists parentTwo, parentOne, p.
Qed.

Lemma crossoverLoop_no_raise (pool : list Gene) (e : Exception) :
  10 <= length pool ->
  forall (fuel : nat) (generation : list Gene) (draws : list nat),
  crossoverLoop fuel pool generation draws <> Raised e.
Proof.
  intros Hpool. induction fuel as [| fuel IH]; intros generation draws;
    cbn [crossoverLoop]; destruct (length generation <? 20); try discriminate.
  assert (Hlookup : forall raw, is_Some (pool !! randint 0 9 raw)).
  { intros raw. apply lookup_lt_is_Some_2. pose proof (randint_range 0 9 raw). lia. }
  destruct draws as [| rawOne [| rawTwo draws]]; [discriminate | |].
  - destruct (Hlookup rawOne) as [parentOne ->]. discriminate.
  - destruct (Hlookup rawOne) as [parentOne ->].
    destruct (Hlookup rawTwo) as [parentTwo ->]. cbn [fromOption obind].
    destruct (crossoverPair parentOne parentTwo false false generation draws)
      as [[middle draws'] | e' |] eqn:Hpair; cbn [obind]; [apply IH | | discriminate].
    by apply crossoverPair_no_raise in Hpair.
Qed.

(** X3.  With ten or more selected genes, [crossover] raises no exception:
    it runs out of draws or it returns.  When it returns, the population is
    the new generation of 20 or 21 genes, each one cut from two selected genes
    at a point of 0..99 and accepted by [validateGene]; the generation counter
    has moved by one and no other field has changed. *)
Theorem crossover_outcome (self : Genetic) (draws : list nat) :
  10 <= length (selectedGenes self) ->
  crossover self draws = Starved \/
  exists newGeneration rest,
    crossover self draws
    = Done (set_generation (generation self + 1)
              (set_population newGeneration self), rest) /\
    20 <= length newGeneration <= 21 /\
    Forall (fun gene => validateGene gene = true /\
                        childOf (selectedGenes self) gene) newGeneration.
Proof.
  intros Hpool. unfold crossover.
  destruct (crossoverLoop (length draws) (selectedGenes self) [] draws)
    as [[newGeneration rest] | e |] eqn:Hloop; cbn [obind].
  - right. exists newGeneration, rest. split; [reflexivity |].
    destruct (crossoverLoop_size _ _ _ _ _ _ Hloop) as (added & -> & Hvalid & Hgrow & _).
    destruct (crossoverLoop_children _ _ _ _ _ _ Hloop) as (added' & Heq & Hchildren).
    cbn [app] in Heq. subst added'. cbn [app] in *.
    split; [apply Hgrow; cbn; lia |].
    apply Forall_and. by split.
  - by apply crossoverLoop_no_raise in Hloop.
  - by left.
Qed.

Lemma crossover_outcome_witness :
  exists newGeneration rest,
    crossover (set_selectedGenes (replicate 10 zeroesThenOnes) (init runSample))
              (pointDraws (replicate 10 (0, 0)))
    = Done (set_generation 2
              (set_population newGeneration
                 (set_selectedGenes (replicate 10 zeroesThenOnes) (init runSample))),
            rest) /\
    20 <= length newGeneration <= 21.
Proof.
  destruct (crossover_outcome
              (set_selectedGenes (replicate 10 zeroesThenOnes) (init runSample))
              (pointDraws (replicate 10 (0, 0))))
    as [Hstarved | (newGeneration & rest & Hrun & Hsize & _)].
  - cbn. lia.
  - vm_compute in Hstarved. discriminate.
  - exists newGeneration, rest. split; [exact Hrun | exact Hsize].
Defined.

Lemma child_99 (a b : Gene) :
  length a <= 100 -> length b <= 100 -> child 99 a b = a.
Proof.
  intros Ha Hb. rewrite child_concat by exact Hb.
  rewrite take_ge, drop_ge by lia. by rewrite app_nil_r.
Qed.

Lemma crossoverLoop_copies (pool : list Gene) :
  10 <= length pool ->
  Forall (fun gene => validateGene gene = true /\ length gene <= 100) pool ->
  forall (pairs : list (nat * nat)) (generation : list Gene) (fuel : nat)
         (rest : list nat),
  length generation + 2 * length pairs = 20 ->
  length pairs <= fuel ->
  crossoverLoop fuel pool generation (pointDraws pairs ++ rest)
  = Done (generation ++ parentsOf pool pairs, rest).
Proof.
  intros Hpool Hvalid.
  induction pairs as [| [rawOne rawTwo] pairs IH]; intros generation fuel rest Hsize Hfuel.
  - cbn in Hsize. cbn [pointDraws parentsOf flat_map app]. rewrite app_nil_r.
    assert (Hfull : (length generation <? 20) = false) by (apply Nat.ltb_ge; lia).
    destruct fuel; cbn [crossoverLoop]; by rewrite Hfull.
  - cbn [length] in Hsize, Hfuel. destruct fuel as [| fuel]; [lia |].
    assert (Hshort : (length generation <? 20) = true) by (apply Nat.ltb_lt; lia).
    cbn [pointDraws parentsOf flat_map app fst snd crossoverLoop]. rewrite Hshort.
    destruct (lookup_lt_is_Some_2 pool (randint 0 9 rawOne)) as [parentOne HOne];
      [pose proof (randint_range 0 9 rawOne); lia |].
    destruct (lookup_lt_is_Some_2 pool (randint 0 9 rawTwo)) as [parentTwo HTwo];
      [pose proof (randint_range 0 9 rawTwo); lia |].
    rewrite HOne, HTwo. cbn [fromOption obind].
    pose proof (proj1 (Forall_forall _ _) Hvalid) as Hmember.
    destruct (Hmember parentOne) as [HvalidOne HlenOne];
      [by eapply list_elem_of_lookup_2 |].
    destruct (Hmember parentTwo) as [HvalidTwo HlenTwo];
      [by eapply list_elem_of_lookup_2 |].
    rewrite crossoverPair_pass. cbv zeta.
    change (drawCrossoverPoint 99) with 99.
    rewrite !child_99 by assumption. rewrite HvalidOne, HvalidTwo. cbn [obind].
    fold (pointDraws pairs). fold (parentsOf pool pairs).
    rewrite IH; [by rewrite <- app_assoc | rewrite length_app; cbn; lia | lia].
Qed.

Lemma pointDraws_length (pairs : list (nat * nat)) :
  length (pointDraws pairs) = 3 * length pairs.
Proof.
  induction pairs as [| ab pairs IH]; [reflexivity |].
  cbn [pointDraws flat_map app length]. fold (pointDraws pairs). rewrite IH. lia.
Qed.

Lemma parentsOf_length (pool : list Gene) (pairs : list (nat * nat)) :
  10 <= length pool -> length (parentsOf pool pairs) = 2 * length pairs.
Proof.
  intros Hpool. induction pairs as [| [rawOne rawTwo] pairs IH]; [reflexivity |].
  cbn [parentsOf flat_map fst snd]. fold (parentsOf pool pairs).
  destruct (lookup_lt_is_Some_2 pool (randint 0 9 rawOne)) as [parentOne ->];
    [pose proof (randint_range 0 9 rawOne); lia |].
  destruct (lookup_lt_is_Some_2 pool (randint 0 9 rawTwo)) as [parentTwo ->];
    [pose proof (randint_range 0 9 rawTwo); lia |].
  cbn. rewrite IH. lia.
Qed.

(** X4.  When every selected gene passes [validateGene] and is no longer
    than 100, [crossover] returns as soon as ten pairs of parents have met
    the crossover point 99: at that point each child is a copy of its parent,
    both are accepted, and the new population is the 20 parents drawn, in the
    order of the draws. *)
Theorem crossover_copies_parents (self : Genetic) (pairs : list (nat * nat))
    (rest : list nat) :
  10 <= length (selectedGenes self) ->
  Forall (fun gene => validateGene gene = true /\ length gene <= 100)
         (selectedGenes self) ->
  length pairs = 10 ->
  crossover self (pointDraws pairs ++ rest)
  = Done (set_generation (generation self + 1)
            (set_population (parentsOf (selectedGenes self) pairs) self), rest) /\
  length (parentsOf (selectedGenes self) pairs) = 20.
Proof.
  intros Hpool Hvalid Hpairs. split; [| rewrite parentsOf_length; lia].
  unfold crossover.
  rewrite (crossoverLoop_copies _ Hpool Hvalid pairs []);
    [reflexivity | cbn; lia | rewrite length_app, pointDraws_length; lia].
Qed.

Lemma crossover_copies_parents_witness :
  crossover (set_selectedGenes (onesThenZeroes :: replicate 9 zeroesThenOnes)
               (init runSample))
            (pointDraws (replicate 10 (0, 1)) ++ [7])
  = Done (set_generation 2
            (set_population
               (parentsOf (onesThenZeroes :: replicate 9 zeroesThenOnes)
                          (replicate 10 (0, 1)))
               (set_selectedGenes (onesThenZeroes :: replicate 9 zeroesThenOnes)
                  (init runSample))), [7]).
Proof.
  refine (proj1 (crossover_copies_parents
                   (set_selectedGenes (onesThenZeroes :: replicate 9 zeroesThenOnes)
                      (init runSample))
                   (replicate 10 (0, 1)) [7] _ _ _)).
  - cbn. lia.
  - repeat constructor; cbn; lia.
  - reflexivity.
Defined.

Lemma child_genotype (pool : list Gene) (gene : Gene) :
  Forall (fun parent => balanced parent /\ Forall isBit parent) pool ->
  childOf pool gene ->
  validateGene gene = true ->
  length gene = 100 /\ Forall isBit gene /\ (balanced gene \/ gene = times "1" 100).
Proof.
  intros Hpool (a & b & p & Ha & Hb & Hp & ->) Haccepted.
  pose proof (proj1 (Forall_forall _ _) Hpool) as Hmember.
  destruct (Hmember a Ha) as [(Hlena & _) Hbitsa].
  destruct (Hmember b Hb) as [(Hlenb & _) Hbitsb].
  assert (Hlen : length (child p a b) = 100)
    by (rewrite child_length; lia).
  assert (Hbits : Forall isBit (child p a b)).
  { rewrite child_concat by lia.
    apply Forall_app_2; [by apply Forall_take | by apply Forall_drop]. }
  split; [exact Hlen |]. split; [exact Hbits |]. by apply accepted_genotype.
Qed.

(** X5.  When the selected genes are balanced bit strings, every gene of
    the population a returning [crossover] leaves is a bit string of length
    100 that is balanced or made of 100 ones. *)
Theorem crossover_of_balanced_pool (self self' : Genetic) (draws rest : list nat) :
  Forall (fun gene => balanced gene /\ Forall isBit gene) (selectedGenes self) ->
  crossover self draws = Done (self', rest) ->
  Forall (fun gene => length gene = 100 /\ Forall isBit gene /\
                      (balanced gene \/ gene = times "1" 100))
         (population self').
Proof.
  intros Hpool Hrun. unfold crossover in Hrun.
  destruct (crossoverLoop (length draws) (selectedGenes self) [] draws)
    as [[newGeneration draws'] | |] eqn:Hloop; try discriminate.
  cbn [obind] in Hrun. injection Hrun as <- <-. cbn [population set_generation set_population].
  destruct (crossoverLoop_size _ _ _ _ _ _ Hloop) as (added & -> & Hvalid & _).
  destruct (crossoverLoop_children _ _ _ _ _ _ Hloop) as (added' & Heq & Hchildren).
  cbn [app] in *. subst added'.
  apply Forall_forall. intros gene Hgene.
  apply (child_genotype (selectedGenes self)); [exact Hpool | |].
  - by apply (proj1 (Forall_forall _ _) Hchildren).
  - by apply (proj1 (Forall_forall _ _) Hvalid).
Qed.

Lemma crossover_of_balanced_pool_witness :
  exists self,
    crossover (set_selectedGenes (onesThenZeroes :: replicate 9 zeroesThenOnes)
                 (init runSample)) runInts = Done (self, []) /\
    Forall (fun gene => length gene = 100 /\ Forall isBit gene /\
                        (balanced gene \/ gene = times "1" 100))
           (population self).
Proof.
  eexists. split; [vm_compute; reflexivity |].
  eapply (crossover_of_balanced_pool
            (set_selectedGenes (onesThenZeroes :: replicate 9 zeroesThenOnes)
               (init runSample)) _ runInts []).
  - cbn [selectedGenes set_selectedGenes]. apply Forall_cons. split.
    + split; [by repeat split | apply bits_onesThenZeroes].
    + apply Forall_replicate. split; [by repeat split | apply bits_zeroesThenOnes].
  - vm_compute. reflexivity.
Defined.

(** ** selection: what it reads and what it keeps *)

Lemma kept_picked (P : Gene -> Prop) (thresholds : list Q) (population : list Gene)
    (us : list Q) (hits : list (option Gene)) :
  Forall2 (picked thresholds population) us hits ->
  Forall (fun u => forall gene, picked thresholds population u (Some gene) -> P gene) us ->
  Forall P (kept hits).
Proof.
  induction 1 as [| u hit us hits Hpicked _ IH]; intros Hall; [constructor |].
  apply Forall_cons in Hall as [Hu Hall]. specialize (IH Hall).
  destruct hit as [gene |]; cbn; fold (kept hits); [| exact IH].
  constructor; [by apply Hu | exact IH].
Qed.

Lemma picked_member (thresholds : list Q) (population : list Gene) (u : Q)
    (gene : Gene) :
  picked thresholds population u (Some gene) -> gene ∈ population.
Proof.
  inversion 1 as [n individual t Hn _ _ _ |]; subst.
  by eapply list_elem_of_lookup_2.
Qed.

(** X6.  [selection] reads the keys of the frequency table and nothing else
    of the object: on two objects whose tables have the same keys in the same
    order (whatever fitness values and differences they hold) the same call
    selects the same genes. *)
Theorem selection_reads_only_keys (count : nat) (population : list Gene)
    (self other : Genetic) (draws : list Q) :
  map fst (frequency self) = map fst (frequency other) ->
  selection count population self draws =
  let* (result, rest) := selection count population other draws in
  Done (set_selectedGenes (selectedGenes result) self, rest).
Proof.
  intros Hkeys. unfold selection. rewrite (weightedFitness_keys _ _ Hkeys).
  destruct (weightedFitness (frequency other)) as [weighted | |]; cbn [obind];
    try reflexivity.
  destruct (selectionLoop count (probabilities weighted) population [] draws)
    as [[newPopulation rest] | |]; reflexivity.
Qed.

Lemma selection_reads_only_keys_witness :
  selection 2 [onesThenZeroes; zeroesThenOnes]
    (set_populationFitness [0%Z] (set_frequency assessedTable (init runSample)))
    [0%Q; (1 # 2)%Q]
  = let* (result, rest) :=
      selection 2 [onesThenZeroes; zeroesThenOnes] (init runSample) [0%Q; (1 # 2)%Q] in
    Done (set_selectedGenes (selectedGenes result)
            (set_populationFitness [0%Z] (set_frequency assessedTable (init runSample))),
          rest).
Proof.
  apply (selection_reads_only_keys 2 [onesThenZeroes; zeroesThenOnes]
           (set_populationFitness [0%Z] (set_frequency assessedTable (init runSample)))
           (init runSample) [0%Q; (1 # 2)%Q]).
  reflexivity.
Defined.

Lemma selection_twenty_run (count : nat) (population : list Gene)
    (self : Genetic) (draws : list Q) :
  map fst (frequency self) = map fst frequencyTable ->
  length population = 20 ->
  count <= length draws ->
  Forall (fun u => (u <= 100)%Q) (take count draws) ->
  exists chosen,
    selection count population self draws
    = Done (set_selectedGenes chosen self, drop count draws) /\
    length chosen = count /\
    Forall (fun gene => gene ∈ population) chosen.
Proof.
  intros Hkeys Hlen Hdraws Hrange. unfold selection.
  rewrite (weightedFitness_keys _ _ Hkeys).
  destruct table_thresholds as (weighted & -> & Hsize & _ & last & Hlast & Hfull).
  cbn [obind].
  destruct (selectionLoop_picked (probabilities weighted) population count [] draws)
    as (hits & -> & Hall); [lia | exact Hdraws |].
  cbn [obind app]. exists (kept hits). split; [reflexivity |].
  assert (Hhits : length hits = count).
  { apply Forall2_length in Hall. rewrite length_take in Hall. lia. }
  split.
  - rewrite <- Hhits. eapply kept_all, picked_covered; [exact Hall |].
    eapply Forall_impl; [exact Hrange |]. intros u Hu. cbn beta in Hu.
    exists 19, last. split; [lia |]. split; [exact Hlast |].
    eapply Qle_trans; [exact Hu | exact Hfull].
  - eapply kept_picked; [exact Hall |].
    apply Forall_forall. intros u _ gene. apply picked_member.
Qed.

(** X7.  Whenever the table holds the keys of [frequencyTable], as it does
    before and after any assessment, [selection(count, population)] on a
    population of 20 and draws of at most 100 returns with exactly [count]
    selected genes, each of them a member of the population, and changes no
    other field. *)
Theorem selection_from_twenty (count : nat) (population : list Gene)
    (self : Genetic) (draws : list Q) :
  map fst (frequency self) = map fst frequencyTable ->
  length population = 20 ->
  count <= length draws ->
  Forall (fun u => (u <= 100)%Q) (take count draws) ->
  exists chosen,
    selection count population self draws
    = Done (set_selectedGenes chosen self, drop count draws) /\
    length chosen = count /\
    Forall (fun gene => gene ∈ population) chosen.
Proof.
  intros Hkeys Hlen Hdraws Hrange.
  destruct (selection_twenty_run count population self draws Hkeys Hlen Hdraws Hrange)
    as (chosen & Hrun & Hsize & Hmembers).
  exists chosen. split; [exact Hrun |]. split; [exact Hsize | exact Hmembers].
Qed.

Lemma selection_from_twenty_witness :
  exists chosen,
    selection 3 (replicate 20 zeroesThenOnes)
      (set_frequency assessedTable (init runSample)) [100%Q; 0%Q; 42%Q; 7%Q]
    = Done (set_selectedGenes chosen (set_frequency assessedTable (init runSample)),
            [7%Q]) /\
    length chosen = 3.
Proof.
  destruct (selection_from_twenty 3 (replicate 20 zeroesThenOnes)
              (set_frequency assessedTable (init runSample))
              [100%Q; 0%Q; 42%Q; 7%Q])
    as (chosen & Hrun & Hsize & _).
  - reflexivity.
  - reflexivity.
  - cbn. lia.
  - repeat constructor; apply Qle_bool_iff; reflexivity.
  - exists chosen. split; [exact Hrun | exact Hsize].
Defined.

Lemma table_first_threshold :
  exists weighted,
    weightedFitness frequencyTable = Done weighted /\
    length (probabilities weighted) = 20 /\
    exists first, probabilities weighted !! 0 = Some first /\
                  (first <= 0)%Q /\ (0 <= first)%Q.
Proof.
  exists tableWeights. split; [apply tableWeights_Done |].
  fold tableThresholds. split; [vm_compute; reflexivity |].
  exists 0%Q. split; [vm_compute; reflexivity |].
  split; apply Qle_bool_iff; vm_compute; reflexivity.
Qed.

(** X8.  The first threshold is 0: with the keys of [frequencyTable], a
    draw above 0 never selects the first member of the population (every gene
    it selects stands at index 1 or later), and a draw of at most 0 selects
    the first member. *)
Theorem selection_first_member (count : nat) (first : Gene) (others : list Gene)
    (self : Genetic) (draws : list Q) :
  map fst (frequency self) = map fst frequencyTable ->
  length (first :: others) <= 20 ->
  count <= length draws ->
  (Forall (fun u => (0 < u)%Q) (take count draws) ->
   exists chosen,
     selection count (first :: others) self draws
     = Done (set_selectedGenes chosen self, drop count draws) /\
     Forall (fun gene => gene ∈ others) chosen) /\
  (Forall (fun u => (u <= 0)%Q) (take count draws) ->
   selection count (first :: others) self draws
   = Done (set_selectedGenes (replicate count first) self, drop count draws)).
Proof.
  intros Hkeys Hlen Hdraws. unfold selection.
  rewrite (weightedFitness_keys _ _ Hkeys).
  destruct table_first_threshold as (weighted & -> & Hsize & zero & Hzero & Hle & Hge).
  cbn [obind].
  destruct (selectionLoop_picked (probabilities weighted) (first :: others) count [] draws)
    as (hits & -> & Hall); [lia | exact Hdraws |].
  cbn [obind app]. split.
  - intros Hpositive. exists (kept hits). split; [reflexivity |].
    eapply kept_picked; [exact Hall |].
    eapply Forall_impl; [exact Hpositive |]. intros u Hu gene Hpicked. cbn beta in Hu.
    inversion Hpicked as [n individual t Hn Ht Hhit _ |]; subst.
    destruct n as [| n]; [| by eapply list_elem_of_lookup_2].
    exfalso. rewrite Hzero in Ht. injection Ht as <-.
    apply (Qlt_irrefl 0). eapply Qlt_le_trans; [exact Hu |].
    eapply Qle_trans; [exact Hhit | exact Hle].
  - intros Hzeroes. do 2 f_equal. f_equal.
    assert (Hsame : hits = replicate (length hits) (Some first)).
    { clear Hdraws. induction Hall as [| u hit us hits Hpicked _ IH]; [reflexivity |].
      apply Forall_cons in Hzeroes as [Hu Hzeroes]. cbn. f_equal; [| by apply IH].
      inversion Hpicked as [n individual t Hn Ht Hhit Hfirst | Hmiss]; subst.
      - destruct n as [| n]; [cbn in Hn; congruence |].
        exfalso. apply (Hfirst 0 zero); [lia | exact Hzero |].
        eapply Qle_trans; [exact Hu | exact Hge].
      - exfalso. apply (Hmiss 0 zero); [cbn; lia | exact Hzero |].
        eapply Qle_trans; [exact Hu | exact Hge]. }
    assert (Hhits : length hits = count).
    { apply Forall2_length in Hall. rewrite length_take in Hall. lia. }
    rewrite Hsame, Hhits. clear. induction count as [| n IH]; [reflexivity |].
    cbn. fold (kept (replicate n (Some first))). by rewrite IH.
Qed.

Lemma selection_first_member_witness :
  exists chosen,
    selection 2 [onesThenZeroes; zeroesThenOnes; zeroesThenOnes] (init runSample)
      [(1 # 2)%Q; 1%Q]
    = Done (set_selectedGenes chosen (init runSample), []) /\
    Forall (fun gene => gene ∈ [zeroesThenOnes; zeroesThenOnes]) chosen.
Proof.
  apply (selection_first_member 2 onesThenZeroes [zeroesThenOnes; zeroesThenOnes]
           (init runSample) [(1 # 2)%Q; 1%Q]).
  - reflexivity.
  - cbn. lia.
  - cbn. lia.
  - repeat constructor.
Defined.

(** ** generatePopulation: what the tape yields *)

Lemma shuffleLoop_Starved {A : Type} :
  forall (i : nat) (x : list A) (draws : list nat),
  length draws < i -> shuffleLoop i x draws = Starved.
Proof.
  induction i as [| i IH]; intros x draws Hshort; [lia |].
  destruct draws as [| raw draws]; [reflexivity |].
  cbn [shuffleLoop]. apply IH. cbn in Hshort. lia.
Qed.

Lemma set_population_same (self : Genetic) :
  set_population (population self) self = self.
Proof. by destruct self. Qed.

Lemma generateLoop_run (size : nat) :
  forall (self : Genetic) (draws : list nat),
  99 * size <= length draws ->
  exists new,
    generateLoop size [] self draws
    = Done (set_population (population self ++ new) self, drop (99 * size) draws) /\
    length new = size /\
    Forall (fun gene => balanced gene /\ Forall isBit gene) new.
Proof.
  induction size as [| size IH]; intros self draws Hdraws.
  - exists []. cbn. rewrite drop_0, app_nil_r, set_population_same. by repeat split.
  - cbn [generateLoop].
    change (fill 100 100 "1" (fill 50 50 "0" [])) with zeroesThenOnes.
    unfold shuffle. change (length zeroesThenOnes - 1) with 99.
    destruct (shuffleLoop_Permutation 99 zeroesThenOnes draws) as (gene & Hrun & Hperm);
      [lia |].
    rewrite Hrun. cbn [obind].
    destruct (IH (set_population (population self ++ [gene]) self) (drop 99 draws))
      as (new & Hloop & Hsize & Hall).
    { rewrite length_drop. lia. }
    exists (gene :: new). rewrite Hloop. cbn [population set_population].
    rewrite drop_drop, <- app_assoc.
    replace (99 + 99 * size) with (99 * S size) by lia.
    split; [reflexivity |]. split; [cbn; lia |].
    constructor; [| exact Hall].
    destruct zeroesThenOnes_balanced as (Hlen & Hzero & Hone).
    split.
    + unfold balanced.
      by rewrite (Permutation_length Hperm), !(count_Permutation _ _ _ Hperm).
    + rewrite Hperm. apply bits_zeroesThenOnes.
Qed.

Lemma generateLoop_Starved (size : nat) :
  forall (self : Genetic) (draws : list nat),
  length draws < 99 * size -> generateLoop size [] self draws = Starved.
Proof.
  induction size as [| size IH]; intros self draws Hshort; [lia |].
  cbn [generateLoop].
  change (fill 100 100 "1" (fill 50 50 "0" [])) with zeroesThenOnes.
  unfold shuffle. change (length zeroesThenOnes - 1) with 99.
  destruct (Nat.lt_ge_cases (length draws) 99) as [Hfirst | Hfirst].
  - by rewrite shuffleLoop_Starved.
  - destruct (shuffleLoop_Permutation 99 zeroesThenOnes draws) as (gene & -> & _);
      [lia |].
    cbn [obind]. apply IH. rewrite length_drop. lia.
Qed.

(** X9.  [generatePopulation(size, length)] uses 99 draws per individual:
    on a tape that holds them it appends [size] genotypes to the population,
    each a balanced bit string of length 100, and changes nothing else; on a
    shorter tape it does not finish. *)
Theorem generatePopulation_appends_genotypes (size len : nat) (self : Genetic)
    (draws : list nat) :
  (99 * size <= length draws ->
   exists new,
     generatePopulation size len self draws
     = Done (set_population (population self ++ new) self, drop (99 * size) draws) /\
     length new = size /\
     Forall (fun gene => balanced gene /\ Forall isBit gene) new) /\
  (length draws < 99 * size ->
   generatePopulation size len self draws = Starved).
Proof.
  unfold generatePopulation. split.
  - apply generateLoop_run.
  - apply generateLoop_Starved.
Qed.

Lemma generatePopulation_appends_genotypes_witness :
  exists new,
    generatePopulation 2 6 (init runSample) (keepDraws 99 ++ reverseDraws ++ [5])
    = Done (set_population new (init runSample), [5]) /\
    length new = 2 /\
    Forall (fun gene => balanced gene /\ Forall isBit gene) new.
Proof.
  destruct (proj1 (generatePopulation_appends_genotypes 2 6 (init runSample)
                     (keepDraws 99 ++ reverseDraws ++ [5])))
    as (new & Hrun & Hsize & Hall).
  - vm_compute. lia.
  - exists new. split; [exact Hrun |]. split; [exact Hsize | exact Hall].
Defined.

(** ** partition: strings of any length *)

Lemma partitionGene_prefix (gene : Gene) :
  forall (instance done subsetOne subsetTwo : list Z),
  length gene <= length instance ->
  partitionGene (done ++ instance) (length done) gene subsetOne subsetTwo
  = Done (subsetOne ++ routed "0" gene instance,
          subsetTwo ++ routed "1" gene instance).
Proof.
  induction gene as [| chromosome gene IH]; intros instance done s1 s2 Hlen.
  - destruct instance; cbn; by rewrite !app_nil_r.
  - destruct instance as [| v instance]; [cbn in Hlen; lia |].
    cbn [length] in Hlen. cbn [partitionGene routed].
    assert (Hv : (done ++ v :: instance) !! length done = Some v)
      by (by rewrite list_lookup_middle).
    rewrite Hv. cbn [fromOption obind].
    replace (done ++ v :: instance) with ((done ++ [v]) ++ instance)
      by (by rewrite <- app_assoc).
    replace (S (length done)) with (length (done ++ [v]))
      by (rewrite length_app; cbn; lia).
    destruct (Ascii.eqb_spec chromosome "0") as [-> | Hzero].
    + cbn [Ascii.eqb Bool.eqb obind andb]. rewrite IH by lia. by rewrite <- app_assoc.
    + destruct (Ascii.eqb chromosome "1"); cbn [obind]; rewrite IH by lia;
        by rewrite <- ?app_assoc.
Qed.

Lemma routed_count (c : ascii) (gene : Gene) :
  forall instance : list Z,
  length gene <= length instance ->
  length (routed c gene instance) = count c gene.
Proof.
  induction gene as [| x gene IH]; intros [| v instance] Hlen;
    cbn in Hlen; try lia; [reflexivity.. |].
  cbn. destruct (Ascii.eqb x c); cbn; rewrite IH by lia; lia.
Qed.

Lemma routed_take (c : ascii) (gene : Gene) :
  forall instance : list Z,
  routed c gene (take (length gene) instance) = routed c gene instance.
Proof.
  induction gene as [| x gene IH]; intros [| v instance]; try reflexivity.
  cbn. by rewrite IH.
Qed.

(** X10.  For any string no longer than the instance, [partition] returns:
    the first subset holds the values under the characters 0 and the second
    the values under the characters 1, so there are as many of each as the
    string has zeroes and ones; the values under any other character and the
    values past the end of the string go to neither subset. *)
Theorem partition_short_string (instance : list Z) (gene : Gene) :
  length gene <= length instance ->
  partitionGene instance 0 gene [] [] = Done (phenotype instance gene) /\
  length (phenotype instance gene).1 = count "0" gene /\
  length (phenotype instance gene).2 = count "1" gene /\
  phenotype instance gene = phenotype (take (length gene) instance) gene.
Proof.
  intros Hlen.
  pose proof (partitionGene_prefix gene instance [] [] [] Hlen) as Hrun.
  cbn [app length] in Hrun. split; [exact Hrun |]. unfold phenotype. cbn [fst snd].
  split; [by apply routed_count |]. split; [by apply routed_count |].
  by rewrite !routed_take.
Qed.

Lemma partition_short_string_witness :
  partitionGene [5; 3; 8; 1; 9]%Z 0 ["1"; "x"; "0"] [] [] = Done ([8]%Z, [5]%Z).
Proof.
  refine (proj1 (partition_short_string [5; 3; 8; 1; 9]%Z ["1"; "x"; "0"] _)).
  cbn. lia.
Defined.

Lemma partitionGene_long (gene : Gene) :
  forall (instance done subsetOne subsetTwo : list Z),
  Forall isBit gene ->
  length instance < length gene ->
  partitionGene (done ++ instance) (length done) gene subsetOne subsetTwo
  = Raised IndexError.
Proof.
  induction gene as [| chromosome gene IH]; intros instance done s1 s2 Hbits Hlen;
    [cbn in Hlen; lia |].
  apply Forall_cons in Hbits as [Hbit Hbits]. cbn [length] in Hlen.
  destruct instance as [| v instance].
  - cbn [partitionGene]. rewrite app_nil_r.
    rewrite (lookup_ge_None_2 done (length done)) by lia.
    by destruct Hbit as [-> | ->].
  - cbn [length] in Hlen. cbn [partitionGene].
    assert (Hv : (done ++ v :: instance) !! length done = Some v)
      by (by rewrite list_lookup_middle).
    rewrite Hv. cbn [fromOption obind].
    replace (done ++ v :: instance) with ((done ++ [v]) ++ instance)
      by (by rewrite <- app_assoc).
    replace (S (length done)) with (length (done ++ [v]))
      by (rewrite length_app; cbn; lia).
    destruct Hbit as [-> | ->]; cbn [Ascii.eqb Bool.eqb obind andb];
      apply IH; (assumption || lia).
Qed.

(** X11.  When the population holds bit strings and one of them is longer
    than the instance, [partition] raises IndexError. *)
Theorem partition_IndexError (self : Genetic) :
  Forall (Forall isBit) (population self) ->
  Exists (fun gene => length (self_list self) < length gene) (population self) ->
  partition self = Raised IndexError.
Proof.
  unfold partition. generalize (population self). intros genes. revert self.
  induction genes as [| gene genes IH]; intros self Hbits Hlong;
    [by apply Exists_nil in Hlong |].
  apply Forall_cons in Hbits as [Hbit Hbits]. cbn [partitionLoop].
  destruct (Nat.lt_ge_cases (length (self_list self)) (length gene)) as [Hgene | Hgene].
  - pose proof (partitionGene_long gene (self_list self) [] [] [] Hbit Hgene) as Hrun.
    cbn [app length] in Hrun. by rewrite Hrun.
  - pose proof (partitionGene_prefix gene (self_list self) [] [] [] Hgene) as Hrun.
    cbn [app length] in Hrun. rewrite Hrun. cbn [obind].
    apply IH; [exact Hbits |].
    apply Exists_cons in Hlong as [Hhere | Hlater]; [lia | exact Hlater].
Qed.

Lemma partition_IndexError_witness :
  partition (set_population [["0"; "1"]; ["1"; "1"; "0"]] (init [4; 6]%Z))
  = Raised IndexError.
Proof.
  apply partition_IndexError.
  - repeat constructor; first [by left | by right].
  - apply Exists_cons_tl, Exists_cons_hd. cbn. lia.
Defined.

(** ** fitnessAssessment: missing buckets *)

Lemma appenditem_None (k v : Z) (d : list (Z * list Z)) :
  getitem k d = None -> appenditem k v d = None.
Proof.
  induction d as [| [k0 bucket] d IH]; cbn; [reflexivity |].
  destruct (k0 =? k)%Z; [discriminate |]. intros Hnone. by rewrite IH.
Qed.

Lemma sorted_length (l : list Z) : length (sorted l) = length l.
Proof. unfold sorted. by rewrite merge_sort_Permutation. Qed.

Lemma fitnessLoop_first_KeyError (d : Z) (todo others : list Z) (self : Genetic) :
  getitem (Z.of_nat (length (d :: others)) - 1) (frequency self) = None ->
  fitnessLoop (d :: todo) (d :: others) self = Raised KeyError.
Proof.
  intros Hnone. cbn [fitnessLoop index]. rewrite Z.eqb_refl.
  cbn [fromOption obind frequency set_populationFitness].
  change (Z.of_nat 0) with 0%Z. rewrite Z.sub_0_r.
  by rewrite (appenditem_None _ _ _ Hnone).
Qed.

Lemma fitnessAssessment_missing_key (population : list (list Z * list Z))
    (self : Genetic) :
  population <> [] ->
  getitem (Z.of_nat (length population) - 1) (frequency self) = None ->
  fitnessAssessment population self = Raised KeyError.
Proof.
  intros Hsome Hnone. unfold fitnessAssessment.
  pose proof (sorted_length (differences population)) as Hsize.
  unfold differences in Hsize at 2. rewrite length_map in Hsize.
  destruct (sorted (differences population)) as [| d others].
  - destruct population; [congruence | discriminate].
  - apply fitnessLoop_first_KeyError. by rewrite Hsize.
Qed.



Lemma set_numericalPopulation_same (self : Genetic) :
  set_numericalPopulation (numericalPopulation self) self = self.
Proof. by destruct self. Qed.

Lemma partitionLoop_state (genes : list Gene) :
  forall self : Genetic,
  Forall (fun gene => length gene <= length (self_list self)) genes ->
  partitionLoop genes self
  = Done (set_numericalPopulation
            (numericalPopulation self ++ map (phenotype (self_list self)) genes) self).
Proof.
  induction genes as [| gene genes IH]; intros self Hall.
  - cbn. by rewrite app_nil_r, set_numericalPopulation_same.
  - apply Forall_cons in Hall as [Hlen Hall]. cbn [partitionLoop].
    pose proof (partitionGene_prefix gene (self_list self) [] [] [] Hlen) as Hrun.
    cbn [app length] in Hrun. rewrite Hrun. cbn [obind].
    rewrite IH by exact Hall. cbn. by rewrite <- app_assoc.
Qed.

(** X13.  [partition] appends the phenotypes of the population to
    numericalPopulation without clearing it, and [main] assesses the whole
    list: once the phenotypes already stored and the population together
    exceed 20, partitioning and assessing again raises KeyError. *)
Theorem second_assessment_KeyError (self : Genetic) :
  Forall (fun gene => length gene <= length (self_list self)) (population self) ->
  20 < length (numericalPopulation self) + length (population self) ->
  (forall k, (20 <= k)%Z -> getitem k (frequency self) = None) ->
  (let* assessed := partition self in
   fitnessAssessment (numericalPopulation assessed) assessed)
  = Raised KeyError.
Proof.
  intros Hall Hmany Hkeys. unfold partition.
  rewrite (partitionLoop_state _ _ Hall). cbn [obind numericalPopulation set_numericalPopulation].
  apply fitnessAssessment_missing_key.
  - intros Hnil. apply (f_equal length) in Hnil.
    rewrite length_app, length_map in Hnil. cbn in Hnil. lia.
  - cbn [frequency set_numericalPopulation]. apply Hkeys.
    rewrite length_app, length_map. lia.
Qed.

Lemma second_assessment_KeyError_witness :
  exists self,
    main (init runSample) runShuffles runUniforms runInts = Done self /\
    (let* assessed := partition self in
     fitnessAssessment (numericalPopulation assessed) assessed)
    = Raised KeyError.
Proof.
  eexists. split; [vm_compute; reflexivity |].
  apply second_assessment_KeyError.
  - cbn [population self_list].
    repeat (apply Forall_cons; split; [vm_compute; lia |]). constructor.
  - vm_compute. lia.
  - intros k Hk. cbn [frequency].
    repeat (cbn [getitem]; destruct (_ =? k)%Z eqn:Heq;
            [apply Z.eqb_eq in Heq; lia | clear Heq]).
    reflexivity.
Defined.

(** ** fitnessAssessment: the frequency table *)

Lemma appenditem_spec (k v : Z) (d : list (Z * list Z)) (bucket : list Z) :
  getitem k d = Some bucket ->
  exists d',
    appenditem k v d = Some d' /\
    map fst d' = map fst d /\
    getitem k d' = Some (bucket ++ [v]) /\
    (forall k', k' <> k -> getitem k' d' = getitem k' d) /\
    length (concat (map snd d')) = S (length (concat (map snd d))).
Proof.
  induction d as [| [k0 b0] d IH]; cbn; [discriminate |].
  destruct (Z.eqb_spec k0 k) as [-> | Hne].
  - intros [= ->]. eexists. split; [reflexivity |]. cbn. rewrite Z.eqb_refl.
    split; [reflexivity |]. split; [reflexivity |]. split.
    + intros k' Hk'. by destruct (Z.eqb_spec k k').
    + rewrite !length_app. cbn. lia.
  - intros Hget. destruct (IH Hget) as (d' & -> & Hkeys & Hnew & Hother & Hsize).
    eexists. split; [reflexivity |]. cbn. rewrite Hkeys.
    destruct (Z.eqb_spec k0 k) as [| _]; [congruence |].
    split; [reflexivity |]. split; [exact Hnew |]. split.
    + intros k' Hk'. destruct (k0 =? k')%Z; [reflexivity | by apply Hother].
    + rewrite !length_app. lia.
Qed.

Lemma set_table_same (self : Genetic) :
  set_frequency (frequency self) (set_populationFitness (populationFitness self) self)
  = self.
Proof. by destruct self. Qed.

Lemma fitnessLoop_table (sortedDifferences : list Z) :
  forall (todo : list Z) (self : Genetic),
  (forall d, d ∈ todo -> d ∈ sortedDifferences) ->
  (forall k, (0 <= k < Z.of_nat (length sortedDifferences))%Z ->
             is_Some (getitem k (frequency self))) ->
  exists table,
    fitnessLoop todo sortedDifferences self
    = Done (set_frequency table
              (set_populationFitness
                 (populationFitness self ++ map (firstRank sortedDifferences) todo)
                 self)) /\
    map fst table = map fst (frequency self) /\
    (forall k bucket,
       getitem k (frequency self) = Some bucket ->
       exists more,
         getitem k table = Some (bucket ++ more) /\
         Forall (fun d => d ∈ todo /\ firstRank sortedDifferences d = k) more) /\
    length (concat (map snd table))
    = length (concat (map snd (frequency self))) + length todo /\
    (forall d, d ∈ todo ->
       exists bucket,
         getitem (firstRank sortedDifferences d) table = Some bucket /\ d ∈ bucket).
Proof.
  induction todo as [| d todo IH]; intros self Hin Hkeys.
  - exists (frequency self). cbn [fitnessLoop map]. rewrite app_nil_r, set_table_same.
    split; [reflexivity |]. split; [reflexivity |]. split; [| split].
    + intros k bucket Hget. exists []. by rewrite app_nil_r.
    + cbn. lia.
    + intros d Hd. by apply elem_of_nil in Hd.
  - cbn [fitnessLoop].
    assert (Hd : d ∈ sortedDifferences) by (apply Hin; left).
    apply list_elem_of_lookup in Hd as [i Hi].
    destruct (index_first d _ i Hi) as (first & Hfirst & Hle & _).
    apply lookup_lt_Some in Hi.
    assert (Hrank : firstRank sortedDifferences d
                    = (Z.of_nat (length sortedDifferences) - 1 - Z.of_nat first)%Z)
      by (unfold firstRank; by rewrite Hfirst).
    rewrite Hfirst. cbn [fromOption obind frequency set_populationFitness].
    rewrite <- Hrank.
    destruct (Hkeys (firstRank sortedDifferences d)) as [bucket0 Hbucket0];
      [rewrite Hrank; lia |].
    destruct (appenditem_spec _ d _ _ Hbucket0)
      as (table1 & -> & Hkeys1 & Hnew1 & Hother1 & Hsize1).
    cbn [fromOption obind].
    destruct (IH (set_frequency table1
                    (set_populationFitness
                       (populationFitness self ++ [firstRank sortedDifferences d]) self)))
      as (table & Hrun & Hkeys2 & Hbuckets & Hsize2 & Hstored).
    + intros d' Hd'. apply Hin. by right.
    + intros k Hk. cbn [frequency set_frequency].
      destruct (decide (k = firstRank sortedDifferences d)) as [-> | Hne];
        [by eexists | rewrite (Hother1 k Hne); by apply Hkeys].
    + cbn [frequency set_frequency populationFitness set_populationFitness] in *.
      exists table. rewrite Hrun. split.
      { cbn. by rewrite <- app_assoc. }
      split; [by rewrite Hkeys2 |]. split; [| split].
      * intros k bucket Hget.
        destruct (decide (k = firstRank sortedDifferences d)) as [-> | Hne].
        -- rewrite Hbucket0 in Hget. injection Hget as <-.
           destruct (Hbuckets _ _ Hnew1) as (more & Hmore & Hall).
           exists (d :: more). rewrite <- app_assoc in Hmore. split; [exact Hmore |].
           constructor; [split; [left | reflexivity] |].
           eapply Forall_impl; [exact Hall |]. intros d' [Hd' Hr]. split; [by right | exact Hr].
        -- rewrite <- (Hother1 k Hne) in Hget.
           destruct (Hbuckets _ _ Hget) as (more & Hmore & Hall).
           exists more. split; [exact Hmore |].
           eapply Forall_impl; [exact Hall |]. intros d' [Hd' Hr]. split; [by right | exact Hr].
      * rewrite Hsize2, Hsize1. cbn. lia.
      * intros d' Hd'. apply elem_of_cons in Hd' as [-> | Hd']; [| by apply Hstored].
        destruct (Hbuckets _ _ Hnew1) as (more & Hmore & _).
        eexists. split; [exact Hmore |]. rewrite <- app_assoc. apply elem_of_app. right. left.
Qed.

(** X14.  [fitnessAssessment] changes two fields, populationFitness and the
    frequency table.  The table keeps its keys in their order; every bucket
    keeps what it held and receives, at its end, differences of the assessed
    population only; the table grows by one stored difference per individual;
    and the difference at each sorted position is stored in the bucket whose
    key is the fitness given to that position. *)
Theorem fitnessAssessment_table (population : list (list Z * list Z))
    (self : Genetic) :
  (forall k, (0 <= k < Z.of_nat (length population))%Z ->
             is_Some (getitem k (frequency self))) ->
  exists fitnesses table,
    fitnessAssessment population self
    = Done (set_frequency table
              (set_populationFitness (populationFitness self ++ fitnesses) self)) /\
    length fitnesses = length population /\
    map fst table = map fst (frequency self) /\
    (forall k bucket,
       getitem k (frequency self) = Some bucket ->
       exists more,
         getitem k table = Some (bucket ++ more) /\
         Forall (fun d => d ∈ differences population) more) /\
    length (concat (map snd table))
    = length (concat (map snd (frequency self))) + length population /\
    (forall i d f,
       sorted (differences population) !! i = Some d ->
       fitnesses !! i = Some f ->
       exists bucket, getitem f table = Some bucket /\ d ∈ bucket).
Proof.
  intros Hkeys. unfold fitnessAssessment.
  set (sortedDifferences := sorted (differences population)).
  assert (Hperm : sortedDifferences ≡ₚ differences population)
    by apply merge_sort_Permutation.
  assert (Hsize : length sortedDifferences = length population).
  { rewrite Hperm. unfold differences. by rewrite length_map. }
  destruct (fitnessLoop_table sortedDifferences sortedDifferences self)
    as (table & Hrun & Hsame & Hbuckets & Htotal & Hstored);
    [done | by rewrite Hsize |].
  exists (map (firstRank sortedDifferences) sortedDifferences), table.
  split; [exact Hrun |]. split; [by rewrite length_map |]. split; [exact Hsame |].
  split; [| split].
  - intros k bucket Hget. destruct (Hbuckets k bucket Hget) as (more & Hmore & Hall).
    exists more. split; [exact Hmore |].
    eapply Forall_impl; [exact Hall |]. intros d [Hd _]. by rewrite <- Hperm.
  - by rewrite Htotal, Hsize.
  - intros i d f Hi Hf. change (map ?g ?l) with (g <$> l) in Hf.
    rewrite list_lookup_fmap, Hi in Hf. injection Hf as <-.
    apply Hstored. by eapply list_elem_of_lookup_2.
Qed.

Lemma fitnessAssessment_table_witness :
  exists fitnesses table,
    fitnessAssessment tiedPopulation (init [])
    = Done (set_frequency table (set_populationFitness fitnesses (init []))) /\
    length fitnesses = 4 /\
    map fst table = map fst frequencyTable.
Proof.
  destruct (fitnessAssessment_table tiedPopulation (init []))
    as (fitnesses & table & Hrun & Hsize & Hkeys & _).
  - intros k Hk. cbn in Hk.
    assert (Hcases : k = 0%Z \/ k = 1%Z \/ k = 2%Z \/ k = 3%Z) by lia.
    destruct Hcases as [-> | [-> | [-> | ->]]]; by eexists.
  - exists fitnesses, table. split; [exact Hrun |]. split; [exact Hsize | exact Hkeys].
Defined.

(** ** fitnessAssessment: what a fitness value counts *)

Lemma filter_below_none (d : Z) (l : list Z) :
  Forall (Z.le d) l -> filter (fun e => (e < d)%Z) l = [].
Proof.
  induction 1 as [| x l Hx _ IH]; [reflexivity |].
  rewrite filter_cons_False by lia. exact IH.
Qed.

Lemma index_sorted (d : Z) (l : list Z) :
  StronglySorted Z.le l ->
  d ∈ l ->
  index d l = Some (length (filter (fun e => (e < d)%Z) l)).
Proof.
  induction 1 as [| x l _ IH Hall]; intros Hd; [by apply elem_of_nil in Hd |].
  cbn [index]. destruct (Z.eqb_spec x d) as [-> | Hne].
  - rewrite filter_cons_False by lia. by rewrite filter_below_none.
  - apply elem_of_cons in Hd as [-> | Hd]; [congruence |].
    assert (Hx : (x <= d)%Z) by (by apply (proj1 (Forall_forall _ _) Hall)).
    rewrite filter_cons_True by lia. rewrite (IH Hd). reflexivity.
Qed.

Lemma filter_split_length (d : Z) (l : list Z) :
  length (filter (fun e => (e < d)%Z) l) + length (filter (fun e => (d <= e)%Z) l)
  = length l.
Proof.
  induction l as [| x l IH]; [reflexivity |].
  destruct (Z.lt_ge_cases x d).
  - rewrite filter_cons_True, (filter_cons_False (fun e => (d <= e)%Z)) by lia.
    cbn. lia.
  - rewrite filter_cons_False, (filter_cons_True (fun e => (d <= e)%Z)) by lia.
    cbn. lia.
Qed.

Lemma sorted_lookup_le (l : list Z) :
  forall (i j : nat) (d d' : Z),
  StronglySorted Z.le l ->
  i <= j -> l !! i = Some d -> l !! j = Some d' -> (d <= d')%Z.
Proof.
  intros i j d d' Hsorted. revert i j.
  induction Hsorted as [| x l _ IH Hall]; intros i j Hij Hi Hj;
    [by rewrite lookup_nil in Hi |].
  destruct i as [| i], j as [| j]; cbn in Hi, Hj; try lia.
  - injection Hi as <-. injection Hj as <-. lia.
  - injection Hi as <-.
    apply (proj1 (Forall_forall _ _) Hall). by eapply list_elem_of_lookup_2.
  - apply (IH i j); [lia | exact Hi | exact Hj].
Qed.

Lemma filter_below_mono (d d' : Z) (l : list Z) :
  (d <= d')%Z ->
  length (filter (fun e => (e < d)%Z) l) <= length (filter (fun e => (e < d')%Z) l).
Proof.
  intros Hle. induction l as [| x l IH]; [reflexivity |].
  destruct (Z.lt_ge_cases x d).
  - rewrite !filter_cons_True by lia. cbn. lia.
  - rewrite filter_cons_False by lia.
    destruct (Z.lt_ge_cases x d').
    + rewrite filter_cons_True by lia. cbn. lia.
    + rewrite filter_cons_False by lia. exact IH.
Qed.

(** X15.  The fitness given to a sorted position is the number of other
    individuals whose difference is not smaller than the difference at that
    position: the smallest difference receives n - 1, the largest receives
    the number of its ties, and a smaller difference never receives a smaller
    fitness. *)
Theorem fitness_counts_no_better (population : list (list Z * list Z))
    (self : Genetic) :
  (forall k, (0 <= k < Z.of_nat (length population))%Z ->
             is_Some (getitem k (frequency self))) ->
  exists self',
    fitnessAssessment population self = Done self' /\
    (forall i d,
       sorted (differences population) !! i = Some d ->
       populationFitness self' !! (length (populationFitness self) + i)
       = Some (Z.of_nat (length (filter (fun e => (d <= e)%Z)
                                        (differences population))) - 1)%Z) /\
    (forall i j f g,
       i <= j ->
       populationFitness self' !! (length (populationFitness self) + i) = Some f ->
       populationFitness self' !! (length (populationFitness self) + j) = Some g ->
       (g <= f)%Z).
Proof.
  intros Hkeys. unfold fitnessAssessment.
  set (sortedDifferences := sorted (differences population)).
  assert (Hperm : sortedDifferences ≡ₚ differences population)
    by apply merge_sort_Permutation.
  assert (Hsize : length sortedDifferences = length population).
  { rewrite Hperm. unfold differences. by rewrite length_map. }
  assert (Hsorted : StronglySorted Z.le sortedDifferences)
    by apply (StronglySorted_merge_sort Z.le).
  destruct (fitnessLoop_run sortedDifferences sortedDifferences self)
    as (self' & Hrun & Hfit); [done | by rewrite Hsize |].
  exists self'. split; [exact Hrun |].
  assert (Hat : forall i d, sortedDifferences !! i = Some d ->
            populationFitness self' !! (length (populationFitness self) + i)
            = Some (Z.of_nat (length sortedDifferences) - 1
                    - Z.of_nat (length (filter (fun e => (e < d)%Z) sortedDifferences)))%Z).
  { intros i d Hi. rewrite Hfit, lookup_app_r by lia.
    replace (length (populationFitness self) + i - length (populationFitness self))
      with i by lia.
    change (map ?g ?l) with (g <$> l). rewrite list_lookup_fmap, Hi. cbn. f_equal.
    unfold firstRank. rewrite (index_sorted d _ Hsorted); [reflexivity |].
    by eapply list_elem_of_lookup_2. }
  split.
  - intros i d Hi. rewrite (Hat i d Hi). f_equal.
    pose proof (filter_split_length d sortedDifferences) as Hsplit.
    rewrite <- Hperm. lia.
  - intros i j f g Hij Hf Hg.
    destruct (sortedDifferences !! i) as [d |] eqn:Hi.
    2:{ apply lookup_ge_None in Hi. apply lookup_lt_Some in Hf.
        rewrite Hfit, length_app, length_map in Hf. lia. }
    destruct (sortedDifferences !! j) as [d' |] eqn:Hj.
    2:{ apply lookup_ge_None in Hj. apply lookup_lt_Some in Hg.
        rewrite Hfit, length_app, length_map in Hg. lia. }
    rewrite (Hat i d Hi) in Hf. rewrite (Hat j d' Hj) in Hg.
    injection Hf as <-. injection Hg as <-.
    pose proof (sorted_lookup_le _ i j d d' Hsorted Hij Hi Hj) as Hle.
    pose proof (filter_below_mono d d' sortedDifferences Hle). lia.
Qed.

Lemma fitness_counts_no_better_witness :
  exists self',
    fitnessAssessment tiedPopulation (init []) = Done self' /\
    populationFitness self' !! 1 = Some 2%Z.
Proof.
  destruct (fitness_counts_no_better tiedPopulation (init []))
    as (self' & Hrun & Hcount & _).
  - intros k Hk. cbn in Hk.
    assert (Hcases : k = 0%Z \/ k = 1%Z \/ k = 2%Z \/ k = 3%Z) by lia.
    destruct Hcases as [-> | [-> | [-> | ->]]]; by eexists.
  - exists self'. split; [exact Hrun |].
    exact (Hcount 1 2%Z eq_refl).
Defined.

(** ** mutation and validateGene *)

Lemma mutationLoop_bits (rate : Q) (gene : Gene) :
  forall (acc : Gene) (ones zeroes : nat) (draws : list Q)
         (scanned : Gene) (ones' zeroes' : nat) (rest : list Q),
  Forall isBit gene ->
  Forall isBit acc ->
  mutationLoop rate gene acc ones zeroes draws = Done (scanned, ones', zeroes', rest) ->
  Forall isBit scanned.
Proof.
  induction gene as [| chromosome gene IH];
    intros acc ones zeroes draws scanned ones' zeroes' rest Hbits Hacc Hrun.
  - cbn in Hrun. by injection Hrun as <- _ _ _.
  - apply Forall_cons in Hbits as [Hbit Hbits].
    destruct draws as [| u draws]; [discriminate |]. cbn [mutationLoop] in Hrun.
    destruct (Qlt_bool u rate).
    + destruct Hbit as [-> | ->];
        [change (flipped "0") with (Done (A := ascii) "1") in Hrun
        | change (flipped "1") with (Done (A := ascii) "0") in Hrun];
        cbn [obind Ascii.eqb Bool.eqb andb] in Hrun;
        (eapply IH; [exact Hbits | | exact Hrun]);
        (apply Forall_app_2; [exact Hacc | apply Forall_singleton]);
        first [by left | by right].
    + eapply IH; [exact Hbits | | exact Hrun].
      apply Forall_app_2; [exact Hacc | by apply Forall_singleton].
Qed.

(** X16.  On a bit string, [mutation] returns a bit string to which
    [validateGene] gives the answer it gives to the input; in particular the
    mutation of a balanced gene is balanced. *)
Theorem mutation_keeps_verdict (self : Genetic) (gene : Gene) (draws : list Q) :
  Forall isBit gene ->
  length gene <= length draws ->
  exists result,
    mutation self gene draws = Done (result, drop (length gene) draws) /\
    Forall isBit result /\
    validateGene result = validateGene gene /\
    (balanced gene -> balanced result).
Proof.
  intros Hbits Hlen.
  destruct (mutationLoop_scan (mutationRate self) gene [] 0 0 draws Hbits Hlen)
    as (scanned & Hrun & Hsize & Hzero & Hone).
  cbn [app Nat.add] in Hrun.
  pose proof (mutationLoop_bits _ _ _ _ _ _ _ _ _ _ Hbits (Forall_nil_2 _) Hrun) as Hscanned.
  unfold mutation. rewrite Hrun. cbn [obind].
  destruct (Nat.eqb_spec (flips "1" "0" gene scanned) (flips "0" "1" gene scanned))
    as [Heq | Hne].
  - exists scanned. split; [reflexivity |]. split; [exact Hscanned |].
    split; [apply validateGene_counts; lia |].
    unfold balanced. intros (H100 & H0 & H1). lia.
  - exists gene. split; [reflexivity |]. split; [exact Hbits |].
    split; [reflexivity | tauto].
Qed.

Lemma mutation_keeps_verdict_witness :
  exists result,
    mutation (init runSample) ["0"; "1"; "1"; "0"] [0%Q; 0%Q; 50%Q; 50%Q]
    = Done (result, []) /\
    Forall isBit result /\
    validateGene result = validateGene ["0"; "1"; "1"; "0"].
Proof.
  destruct (mutation_keeps_verdict (init runSample) ["0"; "1"; "1"; "0"]
              [0%Q; 0%Q; 50%Q; 50%Q])
    as (result & Hrun & Hbits & Hverdict & _).
  - repeat constructor; first [by left | by right].
  - cbn. lia.
  - exists result. split; [exact Hrun |]. split; [exact Hbits | exact Hverdict].
Defined.

(** ** main: the whole run *)

Lemma frequencyTable_keys (k : Z) :
  (0 <= k < 20)%Z -> is_Some (getitem k frequencyTable).
Proof.
  intros Hk.
  assert (Hcases : k = 0%Z \/ k = 1%Z \/ k = 2%Z \/ k = 3%Z \/ k = 4%Z \/ k = 5%Z \/ k = 6%Z \/ k = 7%Z \/ k = 8%Z \/ k = 9%Z \/ k = 10%Z \/ k = 11%Z \/ k = 12%Z \/ k = 13%Z \/ k = 14%Z \/ k = 15%Z \/ k = 16%Z \/ k = 17%Z \/ k = 18%Z \/ k = 19%Z) by lia.
  destruct Hcases as [-> | [-> | [-> | [-> | [-> | [-> | [-> | [-> | [-> | [-> | [-> | [-> | [-> | [-> | [-> | [-> | [-> | [-> | [-> | ->]]]]]]]]]]]]]]]]]]]; by eexists.
Qed.

Lemma selectionLoop_Starved (thresholds : list Q) (population : list Gene) :
  length population <= length thresholds ->
  forall (n : nat) (newPopulation : list Gene) (draws : list Q),
  length draws < n ->
  selectionLoop n thresholds population newPopulation draws = Starved.
Proof.
  intros Hlen. induction n as [| n IH]; intros newPopulation draws Hshort; [lia |].
  destruct draws as [| u draws]; [reflexivity |]. cbn [selectionLoop].
  destruct (pick_picked thresholds u population []) as (hit & Hrun & _);
    [cbn; lia | intros m t Hm; cbn in Hm; lia |].
  cbn [length] in Hrun. rewrite Hrun. cbn [obind]. apply IH. cbn in Hshort. lia.
Qed.

Lemma parentsOf_members (pool : list Gene) (pairs : list (nat * nat)) :
  Forall (fun gene => gene ∈ pool) (parentsOf pool pairs).
Proof.
  induction pairs as [| [rawOne rawTwo] pairs IH]; [constructor |].
  cbn [parentsOf flat_map fst snd]. fold (parentsOf pool pairs).
  destruct (pool !! randint 0 9 rawOne) as [parentOne |] eqn:HOne; [| exact IH].
  destruct (pool !! randint 0 9 rawTwo) as [parentTwo |] eqn:HTwo; [| exact IH].
  cbn. constructor; [by eapply list_elem_of_lookup_2 |].
  constructor; [by eapply list_elem_of_lookup_2 | exact IH].
Qed.

(** The state [main] hands to [crossover]. *)
Lemma main_until_crossover (sample : list Z) (shuffleDraws : list nat)
    (uniformDraws : list Q) :
  100 <= length sample ->
  Forall (fun u => (u <= 100)%Q) (take 10 uniformDraws) ->
  ((length shuffleDraws < 1980 \/ length uniformDraws < 10) /\
   forall intDraws, main (init sample) shuffleDraws uniformDraws intDraws = Starved) \/
  exists ready,
    (forall intDraws,
       main (init sample) shuffleDraws uniformDraws intDraws
       = let* (self, _) := crossover ready intDraws in Done self) /\
    self_list ready = sample /\
    length (population ready) = 20 /\
    Forall (fun gene => balanced gene /\ Forall isBit gene) (population ready) /\
    length (selectedGenes ready) = 10 /\
    Forall (fun gene => gene ∈ population ready) (selectedGenes ready) /\
    length (numericalPopulation ready) = 20 /\
    length (populationFitness ready) = 20 /\
    map fst (frequency ready) = map fst frequencyTable /\
    generation ready = 1%Z.
Proof.
  intros Hsample Hrange. unfold main, generatePopulation.
  destruct (Nat.lt_ge_cases (length shuffleDraws) 1980) as [Hshuffles | Hshuffles].
  { left. split; [by left |]. intros intDraws.
    by rewrite (generateLoop_Starved 20 (init sample) shuffleDraws). }
  destruct (generateLoop_run 20 (init sample) shuffleDraws) as (new & -> & Hnew & Hgenes);
    [lia |].
  cbn [obind population init app]. unfold partition.
  rewrite partitionLoop_state.
  2:{ cbn [population set_population self_list].
      eapply Forall_impl; [exact Hgenes |]. intros gene [(Hlen & _) _].
      change (length gene <= length sample). lia. }
  cbn [obind numericalPopulation set_numericalPopulation set_population
       self_list population app]. unfold fitnessAssessment.
  change (numericalPopulation (init sample)
          ++ map (phenotype (self_list (init sample))) new)
    with (map (phenotype sample) new).
  set (phenotypes := map (phenotype sample) new).
  set (sortedDifferences := sorted (differences phenotypes)).
  assert (Hsorted : length sortedDifferences = 20).
  { unfold sortedDifferences, differences, phenotypes.
    by rewrite sorted_length, !length_map. }
  destruct (fitnessLoop_table sortedDifferences sortedDifferences
              (set_numericalPopulation phenotypes (set_population new (init sample))))
    as (table & -> & Hkeys & _); [done | |].
  { intros k Hk. cbn [frequency]. apply frequencyTable_keys. lia. }
  cbn [obind populationFitness frequency app population] in *.
  set (assessed := set_frequency table _).
  assert (Hkeys' : map fst (frequency assessed) = map fst frequencyTable) by exact Hkeys.
  destruct (Nat.lt_ge_cases (length uniformDraws) 10) as [Huniforms | Huniforms].
  { left. split; [by right |]. intros intDraws. unfold selection.
    rewrite (weightedFitness_keys _ _ Hkeys').
    destruct table_thresholds as (weighted & -> & Hsize & _). cbn [obind].
    rewrite selectionLoop_Starved; [reflexivity | | exact Huniforms].
    change (population assessed) with new. lia. }
  destruct (selection_twenty_run 10 new assessed uniformDraws Hkeys' Hnew Huniforms Hrange)
    as (chosen & Hselect & Hchosen & Hmembers).
  right. exists (set_selectedGenes chosen assessed). split; [| split; [| split]].
  - intros intDraws. change (population assessed) with new. by rewrite Hselect.
  - reflexivity.
  - exact Hnew.
  - split; [exact Hgenes |]. split; [exact Hchosen |]. split; [exact Hmembers |].
    split; [unfold phenotypes in *; cbn; by rewrite length_map |].
    split; [cbn; by rewrite length_map |]. split; [exact Hkeys | reflexivity].
Qed.

Lemma members_balanced (population chosen : list Gene) :
  Forall (fun gene => balanced gene /\ Forall isBit gene) population ->
  Forall (fun gene => gene ∈ population) chosen ->
  Forall (fun gene => balanced gene /\ Forall isBit gene) chosen.
Proof.
  intros Hall Hmembers. eapply Forall_impl; [exact Hmembers |].
  intros gene Hgene. by apply (proj1 (Forall_forall _ _) Hall).
Qed.

(** X17.  Started from [__init__] with an instance of at least 100 values
    and roulette draws of at most 100, [main] raises no exception: it runs
    out of draws or it returns.  When it returns, the population holds 20 or
    21 bit strings of length 100, each balanced or made of 100 ones; ten
    balanced genes are selected; 20 phenotypes and 20 fitness values are
    stored; the table has the keys of [frequencyTable]; the generation
    counter is 2. *)
Theorem main_never_raises (sample : list Z) (shuffleDraws : list nat)
    (uniformDraws : list Q) (intDraws : list nat) :
  100 <= length sample ->
  Forall (fun u => (u <= 100)%Q) (take 10 uniformDraws) ->
  main (init sample) shuffleDraws uniformDraws intDraws = Starved \/
  exists self,
    main (init sample) shuffleDraws uniformDraws intDraws = Done self /\
    self_list self = sample /\
    20 <= length (population self) <= 21 /\
    Forall (fun gene => length gene = 100 /\ Forall isBit gene /\
                        (balanced gene \/ gene = times "1" 100))
           (population self) /\
    length (selectedGenes self) = 10 /\
    Forall (fun gene => balanced gene /\ Forall isBit gene) (selectedGenes self) /\
    length (numericalPopulation self) = 20 /\
    length (populationFitness self) = 20 /\
    map fst (frequency self) = map fst frequencyTable /\
    generation self = 2%Z.
Proof.
  intros Hsample Hrange.
  destruct (main_until_crossover sample shuffleDraws uniformDraws Hsample Hrange)
    as [[_ Hstarved] | (ready & Hmain & Hlist & Hpop & Hgenes & Hsel & Hmembers
                        & Hnum & Hfit & Hkeys & Hgen)];
    [by left |].
  rewrite Hmain. unfold crossover.
  pose proof (members_balanced _ _ Hgenes Hmembers) as Hpool.
  destruct (crossoverLoop (length intDraws) (selectedGenes ready) [] intDraws)
    as [[newGeneration rest] | e |] eqn:Hloop; cbn [obind].
  - right. eexists. split; [reflexivity |].
    cbn [self_list population selectedGenes numericalPopulation populationFitness
         frequency generation set_generation set_population].
    destruct (crossoverLoop_size _ _ _ _ _ _ Hloop) as (added & -> & Hvalid & Hgrow & _).
    destruct (crossoverLoop_children _ _ _ _ _ _ Hloop) as (added' & Heq & Hchildren).
    cbn [app] in *. subst added'.
    split; [exact Hlist |]. split; [apply Hgrow; cbn; lia |]. split.
    { apply Forall_forall. intros gene Hgene.
      apply (child_genotype (selectedGenes ready)); [exact Hpool | |].
      - by apply (proj1 (Forall_forall _ _) Hchildren).
      - by apply (proj1 (Forall_forall _ _) Hvalid). }
    split; [exact Hsel |]. split; [exact Hpool |]. split; [exact Hnum |].
    split; [exact Hfit |]. split; [exact Hkeys |]. rewrite Hgen. reflexivity.
  - exfalso. apply crossoverLoop_no_raise in Hloop; [exact Hloop | lia].
  - by left.
Qed.

Lemma main_never_raises_witness :
  exists self,
    main (init runSample) runShuffles runUniforms runInts = Done self /\
    20 <= length (population self) <= 21 /\
    generation self = 2%Z.
Proof.
  destruct (main_never_raises runSample runShuffles runUniforms runInts)
    as [Hstarved | (self & Hrun & _ & Hsize & _ & _ & _ & _ & _ & _ & Hgen)].
  - vm_compute. lia.
  - repeat constructor; apply Qle_bool_iff; reflexivity.
  - vm_compute in Hstarved. discriminate.
  - exists self. split; [exact Hrun |]. split; [exact Hsize | exact Hgen].
Defined.

(** X18.  With tapes that hold the 1980 shuffle draws and the ten roulette
    draws, [main] returns as soon as ten pairs of parents have met the
    crossover point 99: the new population is then exactly 20 balanced bit
    strings, each a copy of a selected gene, and the generation counter is
    2. *)
Theorem main_completes (sample : list Z) (shuffleDraws : list nat)
    (uniformDraws : list Q) (pairs : list (nat * nat)) (rest : list nat) :
  100 <= length sample ->
  1980 <= length shuffleDraws ->
  10 <= length uniformDraws ->
  Forall (fun u => (u <= 100)%Q) (take 10 uniformDraws) ->
  length pairs = 10 ->
  exists self,
    main (init sample) shuffleDraws uniformDraws (pointDraws pairs ++ rest) = Done self /\
    length (population self) = 20 /\
    Forall (fun gene => balanced gene /\ Forall isBit gene) (population self) /\
    Forall (fun gene => gene ∈ selectedGenes self) (population self) /\
    generation self = 2%Z.
Proof.
  intros Hsample Hshuffles Huniforms Hrange Hpairs.
  destruct (main_until_crossover sample shuffleDraws uniformDraws Hsample Hrange)
    as [[Hshort _] | (ready & Hmain & Hlist & Hpop & Hgenes & Hsel & Hmembers
                      & Hnum & Hfit & Hkeys & Hgen)];
    [lia |].
  pose proof (members_balanced _ _ Hgenes Hmembers) as Hpool.
  assert (Hvalid : Forall (fun gene => validateGene gene = true /\ length gene <= 100)
                          (selectedGenes ready)).
  { eapply Forall_impl; [exact Hpool |]. intros gene [(Hlen & _ & Hone) _].
    split; [apply validateGene_true; by right | lia]. }
  rewrite Hmain. unfold crossover.
  assert (Hten : 10 <= length (selectedGenes ready)) by lia.
  rewrite (crossoverLoop_copies (selectedGenes ready) Hten Hvalid pairs []);
    [| cbn; lia | rewrite length_app, pointDraws_length; lia].
  cbn [obind app]. eexists. split; [reflexivity |].
  cbn [population selectedGenes generation set_generation set_population].
  split; [rewrite parentsOf_length; lia |]. split.
  - eapply members_balanced; [exact Hpool | apply parentsOf_members].
  - split; [apply parentsOf_members | by rewrite Hgen].
Qed.

Lemma main_completes_witness :
  exists self,
    main (init runSample) runShuffles runUniforms (pointDraws (replicate 10 (0, 1)))
    = Done self /\
    length (population self) = 20.
Proof.
  destruct (main_completes runSample runShuffles runUniforms (replicate 10 (0, 1)) [])
    as (self & Hrun & Hsize & _).
  - vm_compute. lia.
  - vm_compute. lia.
  - vm_compute. lia.
  - repeat constructor; apply Qle_bool_iff; reflexivity.
  - reflexivity.
  - exists self. rewrite app_nil_r in Hrun. split; [exact Hrun | exact Hsize].
Defined.
